(** * Ryot dashboard: progress-update expansion and import dispatch

    A shallow embedding of the two request handlers of the front end that
    carry logic of their own:

    - [progressUpdate], the named action of
      [_dashboard.media.item.$id._index.tsx] that turns one submitted
      "mark as seen" form into the list of records sent to the bulk
      progress-update job;
    - [deployImport], the named action of
      [_dashboard.settings.imports-and-exports._index.tsx] that shapes the
      submitted fields into the input of the import job.

    JavaScript numbers that the code uses as season, episode and chapter
    numbers are integers ([Z]); thrown exceptions are the [Throws] case of
    [outcome]. *)

From Stdlib Require Import ZArith String Ascii List Bool Lia Sorted.
From stdpp Require Import base option list gmap strings.

Local Open Scope string_scope.
Local Open Scope Z_scope.
Local Set Warnings "-register-all".

(** ** Exceptions *)

(** What the handlers can throw before they reach the network call. *)
Inductive error : Type :=
  | SyntaxError (text : string)        (* JSON.parse on [text] *)
  | ZodError                           (* schema.parse on a parsed value *)
  | InvariantError (message : string)  (* tiny-invariant *)
  | ValidationError (field : string).  (* processSubmission *)

Inductive outcome (A : Type) : Type :=
  | Returns (a : A)
  | Throws (e : error).
Arguments Returns {A} a.
Arguments Throws {A} e.

#[global] Instance outcome_ret : MRet outcome := fun A a => Returns a.
#[global] Instance outcome_bind : MBind outcome := fun A B f x =>
  match x with
  | Returns a => f a
  | Throws e => Throws e
  end.
#[global] Instance outcome_fmap : FMap outcome := fun A B f x =>
  match x with
  | Returns a => Returns (f a)
  | Throws e => Throws e
  end.

Definition throws {A} (x : outcome A) : Prop := ∃ e, x = Throws e.
Definition returns {A} (x : outcome A) : Prop := ∃ a, x = Returns a.

(** ** JSON values and [JSON.parse] *)

(** A number keeps its literal exactly: [JNumber m e] is [m * 10^e]. *)
Inductive jsvalue : Type :=
  | JNull
  | JBool (b : bool)
  | JNumber (m e : Z)
  | JString (s : string)
  | JArray (items : list jsvalue)
  | JObject (members : list (string * jsvalue)).

Module Json.

Definition is_ws (c : ascii) : bool :=
  Ascii.eqb c " " || Ascii.eqb c "009" || Ascii.eqb c "010" || Ascii.eqb c "013".

Fixpoint skip_ws (s : string) : string :=
  match s with
  | String c r => if is_ws c then skip_ws r else s
  | EmptyString => s
  end.

Definition code (c : ascii) : Z := Z.of_N (N_of_ascii c).
Definition char (n : Z) : ascii := ascii_of_N (Z.to_N n).

Definition digit (c : ascii) : option Z :=
  let n := code c in
  if (48 <=? n) && (n <=? 57) then Some (n - 48) else None.

Definition hex (c : ascii) : option Z :=
  let n := code c in
  if (48 <=? n) && (n <=? 57) then Some (n - 48)
  else if (65 <=? n) && (n <=? 70) then Some (n - 55)
  else if (97 <=? n) && (n <=? 102) then Some (n - 87)
  else None.

(** Longest run of decimal digits: its value, its length, the rest. *)
Fixpoint digits (acc : Z) (len : Z) (s : string) : Z * Z * string :=
  match s with
  | String c r =>
      match digit c with
      | Some d => digits (10 * acc + d) (len + 1) r
      | None => (acc, len, s)
      end
  | EmptyString => (acc, len, s)
  end.

(** A number literal: an optional minus sign; a zero, or a digit from 1
    to 9 followed by digits; optionally a dot and one or more digits;
    optionally e or E, a sign, and one or more digits. *)
Definition parse_int (s : string) : option (Z * string) :=
  match s with
  | String c r =>
      if Ascii.eqb c "0" then Some (0, r)
      else
        let '(v, len, r') := digits 0 0 s in
        if 0 <? len then Some (v, r') else None
  | EmptyString => None
  end.

Definition parse_frac (m : Z) (s : string) : option (Z * Z * string) :=
  match s with
  | String c r =>
      if Ascii.eqb c "." then
        let '(v, len, r') := digits 0 0 r in
        if 0 <? len then Some (m * 10 ^ len + v, - len, r') else None
      else Some (m, 0, s)
  | EmptyString => Some (m, 0, s)
  end.

Definition parse_exp (s : string) : option (Z * string) :=
  match s with
  | String c r =>
      if Ascii.eqb c "e" || Ascii.eqb c "E" then
        let '(neg, r1) :=
          match r with
          | String d r1 =>
              if Ascii.eqb d "-" then (true, r1)
              else if Ascii.eqb d "+" then (false, r1)
              else (false, r)
          | EmptyString => (false, r)
          end in
        let '(v, len, r2) := digits 0 0 r1 in
        if 0 <? len then Some (if neg : bool then - v else v, r2) else None
      else Some (0, s)
  | EmptyString => Some (0, s)
  end.

Definition parse_number (s : string) : option (jsvalue * string) :=
  let '(neg, s1) :=
    match s with
    | String c r => if Ascii.eqb c "-" then (true, r) else (false, s)
    | EmptyString => (false, s)
    end in
  '(i, s2) ← parse_int s1;
  '(m, e1, s3) ← parse_frac i s2;
  '(e2, s4) ← parse_exp s3;
  Some (JNumber (if neg : bool then - m else m) (e1 + e2), s4).

(** A [\uXXXX] escape is one UTF-16 code unit; the string keeps it as the
    UTF-8 bytes of that code unit. *)
Definition utf8 (u : Z) : string :=
  if u <? 128 then String (char u) EmptyString
  else if u <? 2048 then
    String (char (192 + u / 64)) (String (char (128 + u mod 64)) EmptyString)
  else
    String (char (224 + u / 4096))
      (String (char (128 + (u / 64) mod 64))
         (String (char (128 + u mod 64)) EmptyString)).

Definition escape (c : ascii) : option ascii :=
  if Ascii.eqb c "034" then Some c
  else if Ascii.eqb c "\" then Some c
  else if Ascii.eqb c "/" then Some c
  else if Ascii.eqb c "b" then Some "008"%char
  else if Ascii.eqb c "f" then Some "012"%char
  else if Ascii.eqb c "n" then Some "010"%char
  else if Ascii.eqb c "r" then Some "013"%char
  else if Ascii.eqb c "t" then Some "009"%char
  else None.

(** The characters of a string literal, after its opening quote. *)
Fixpoint parse_chars (s : string) : option (string * string) :=
  match s with
  | EmptyString => None
  | String c r =>
      if Ascii.eqb c "034" then Some (EmptyString, r)
      else if Ascii.eqb c "\" then
        match r with
        | String x r1 =>
            if Ascii.eqb x "u" then
              match r1 with
              | String h1 (String h2 (String h3 (String h4 r2))) =>
                  a ← hex h1; b ← hex h2; c ← hex h3; d ← hex h4;
                  '(t, rest) ← parse_chars r2;
                  Some (utf8 (4096 * a + 256 * b + 16 * c + d) ++ t, rest)
              | _ => None
              end
            else
              y ← escape x;
              '(t, rest) ← parse_chars r1;
              Some (String y t, rest)
        | EmptyString => None
        end
      else if code c <? 32 then None
      else
        '(t, rest) ← parse_chars r;
        Some (String c t, rest)
  end.

Definition parse_literal (word : string) (v : jsvalue) (s : string)
  : option (jsvalue * string) :=
  if String.prefix word s
  then Some (v, String.substring (String.length word)
                  (String.length s - String.length word) s)
  else None.

(** Recursive descent on the grammar of ECMA-404.  Every two nested calls
    consume a character, so [2 * length s + 2] calls are enough. *)
Fixpoint parse_value (fuel : nat) (s : string) : option (jsvalue * string) :=
  match fuel with
  | O => None
  | S fuel =>
      match skip_ws s with
      | EmptyString => None
      | String c r =>
          if Ascii.eqb c "[" then
            match skip_ws r with
            | String c' r' =>
                if Ascii.eqb c' "]" then Some (JArray [], r')
                else '(items, rest) ← parse_elements fuel r;
                     Some (JArray items, rest)
            | EmptyString => None
            end
          else if Ascii.eqb c "{" then
            match skip_ws r with
            | String c' r' =>
                if Ascii.eqb c' "}" then Some (JObject [], r')
                else '(members, rest) ← parse_members fuel r;
                     Some (JObject members, rest)
            | EmptyString => None
            end
          else if Ascii.eqb c "034" then
            '(t, rest) ← parse_chars r; Some (JString t, rest)
          else if Ascii.eqb c "n" then parse_literal "null" JNull (String c r)
          else if Ascii.eqb c "t" then parse_literal "true" (JBool true) (String c r)
          else if Ascii.eqb c "f" then parse_literal "false" (JBool false) (String c r)
          else parse_number (String c r)
      end
  end
with parse_elements (fuel : nat) (s : string) : option (list jsvalue * string) :=
  match fuel with
  | O => None
  | S fuel =>
      '(v, r) ← parse_value fuel s;
      match skip_ws r with
      | String c r' =>
          if Ascii.eqb c "," then
            '(vs, rest) ← parse_elements fuel r'; Some (v :: vs, rest)
          else if Ascii.eqb c "]" then Some ([v], r')
          else None
      | EmptyString => None
      end
  end
with parse_members (fuel : nat) (s : string)
  : option (list (string * jsvalue) * string) :=
  match fuel with
  | O => None
  | S fuel =>
      match skip_ws s with
      | String q r =>
          if Ascii.eqb q "034" then
            '(k, r1) ← parse_chars r;
            match skip_ws r1 with
            | String c r2 =>
                if Ascii.eqb c ":" then
                  '(v, r3) ← parse_value fuel r2;
                  match skip_ws r3 with
                  | String c' r4 =>
                      if Ascii.eqb c' "," then
                        '(ms, rest) ← parse_members fuel r4;
                        Some ((k, v) :: ms, rest)
                      else if Ascii.eqb c' "}" then Some ([(k, v)], r4)
                      else None
                  | EmptyString => None
                  end
                else None
            | EmptyString => None
            end
          else None
      | EmptyString => None
      end
  end.

(** [JSON.parse]: one value, then only white space. *)
Definition parse (text : string) : outcome jsvalue :=
  match parse_value (2 * String.length text + 2) text with
  | Some (v, rest) =>
      match skip_ws rest with
      | EmptyString => Returns v
      | String _ _ => Throws (SyntaxError text)
      end
  | None => Throws (SyntaxError text)
  end.

(** Property access on a parsed object: of two members with one name the
    later one wins. *)
Fixpoint get (k : string) (members : list (string * jsvalue)) : option jsvalue :=
  match members with
  | [] => None
  | (k', v) :: rest =>
      match get k rest with
      | Some v' => Some v'
      | None => if String.eqb k k' then Some v else None
      end
  end.

End Json.

(** ** The schemas of the progress form *)

(** [z.number()].  Season and episode numbers are integers in this model, so
    a literal is read as the integer it denotes ([2e0] is 2); a literal that
    denotes no integer has no value here and is refused. *)
Definition z_number (v : jsvalue) : outcome Z :=
  match v with
  | JNumber m e =>
      if 0 <=? e then Returns (m * 10 ^ e)
      else if m mod 10 ^ (- e) =? 0 then Returns (m / 10 ^ (- e))
      else Throws ZodError
  | _ => Throws ZodError
  end.

(** [z.array(item)] *)
Fixpoint z_items {A} (item : jsvalue → outcome A) (vs : list jsvalue)
  : outcome (list A) :=
  match vs with
  | [] => Returns []
  | v :: rest => a ← item v; l ← z_items item rest; Returns (a :: l)
  end.

Definition z_array {A} (item : jsvalue → outcome A) (v : jsvalue)
  : outcome (list A) :=
  match v with
  | JArray vs => z_items item vs
  | _ => Throws ZodError
  end.

(** A required key of a [z.object]. *)
Definition z_key {A} (k : string) (field : jsvalue → outcome A) (v : jsvalue)
  : outcome A :=
  match v with
  | JObject members =>
      match Json.get k members with
      | Some x => field x
      | None => Throws ZodError
      end
  | _ => Throws ZodError
  end.

Record Season : Type := { seasonNumber : Z; episodes : list Z }.
Record PodcastEpisode : Type := { episodeNumber : Z }.

(** [z.array(z.object({ seasonNumber: z.number(), episodes: z.array(z.number()) }))] *)
Definition showSpecificsSchema (v : jsvalue) : outcome (list Season) :=
  z_array (λ o,
    n ← z_key "seasonNumber" z_number o;
    es ← z_key "episodes" (z_array z_number) o;
    Returns {| seasonNumber := n; episodes := es |}) v.

(** [z.array(z.object({ episodeNumber: z.number() }))] *)
Definition podcastSpecificsSchema (v : jsvalue) : outcome (list PodcastEpisode) :=
  z_array (λ o,
    n ← z_key "episodeNumber" z_number o;
    Returns {| episodeNumber := n |}) v.

(** ** The progress form *)

(** The kinds of media; the enumeration is generated from the GraphQL schema,
    and these are the values the page names. *)
Inductive MetadataLot : Type :=
  | AudioBook | Anime | Book | Podcast | Manga | Movie | Show | VideoGame
  | VisualNovel.

#[global] Instance MetadataLot_eq_dec : EqDecision MetadataLot.
Proof. solve_decision. Defined.

(** The value [processSubmission(formData, progressUpdateSchema)] returns.
    An optional field is [None] when it is undefined; [redirectTo] is the
    field named by [redirectToQueryParam].  The five numbers are the fields
    that [MetadataSpecificsSchema] of [~/lib/utilities.server] adds: optional
    integers, as in the type [UpdateProgress] of the page and in the records
    of section 3 of the spec. *)
Module Submission.
Record t : Type := {
  metadataLot : MetadataLot;
  date : option string;
  redirectTo : option string;
  showSpecifics : option string;
  showAllSeasonsBefore : option bool;
  podcastSpecifics : option string;
  onlySeason : option bool;
  completeShow : option bool;
  completePodcast : option bool;
  animeAllEpisodesBefore : option bool;
  mangaAllChaptersBefore : option bool;
  metadataId : Z;
  showSeasonNumber : option Z;
  showEpisodeNumber : option Z;
  podcastEpisodeNumber : option Z;
  animeEpisodeNumber : option Z;
  mangaChapterNumber : option Z;
}.
End Submission.

(** One record of the bulk update: the object [variables] and its copies. *)
Module Variables.
Record t : Type := {
  metadataId : Z;
  progress : Z;
  date : option string;
  showSeasonNumber : option Z;
  showEpisodeNumber : option Z;
  podcastEpisodeNumber : option Z;
  animeEpisodeNumber : option Z;
  mangaChapterNumber : option Z;
}.

(** [{ ...v, animeEpisodeNumber: i }] and its siblings. *)
Definition with_animeEpisodeNumber (i : Z) (v : t) : t :=
  {| metadataId := metadataId v; progress := progress v; date := date v;
     showSeasonNumber := showSeasonNumber v;
     showEpisodeNumber := showEpisodeNumber v;
     podcastEpisodeNumber := podcastEpisodeNumber v;
     animeEpisodeNumber := Some i;
     mangaChapterNumber := mangaChapterNumber v |}.

Definition with_mangaChapterNumber (i : Z) (v : t) : t :=
  {| metadataId := metadataId v; progress := progress v; date := date v;
     showSeasonNumber := showSeasonNumber v;
     showEpisodeNumber := showEpisodeNumber v;
     podcastEpisodeNumber := podcastEpisodeNumber v;
     animeEpisodeNumber := animeEpisodeNumber v;
     mangaChapterNumber := Some i |}.

Definition with_showSeasonNumber (i : Z) (v : t) : t :=
  {| metadataId := metadataId v; progress := progress v; date := date v;
     showSeasonNumber := Some i;
     showEpisodeNumber := showEpisodeNumber v;
     podcastEpisodeNumber := podcastEpisodeNumber v;
     animeEpisodeNumber := animeEpisodeNumber v;
     mangaChapterNumber := mangaChapterNumber v |}.

Definition with_showEpisodeNumber (i : Z) (v : t) : t :=
  {| metadataId := metadataId v; progress := progress v; date := date v;
     showSeasonNumber := showSeasonNumber v;
     showEpisodeNumber := Some i;
     podcastEpisodeNumber := podcastEpisodeNumber v;
     animeEpisodeNumber := animeEpisodeNumber v;
     mangaChapterNumber := mangaChapterNumber v |}.

Definition with_podcastEpisodeNumber (i : Z) (v : t) : t :=
  {| metadataId := metadataId v; progress := progress v; date := date v;
     showSeasonNumber := showSeasonNumber v;
     showEpisodeNumber := showEpisodeNumber v;
     podcastEpisodeNumber := Some i;
     animeEpisodeNumber := animeEpisodeNumber v;
     mangaChapterNumber := mangaChapterNumber v |}.
End Variables.

(** *** Truthiness *)

(** [if (x)] on an optional boolean, an optional number, an optional string. *)
Definition truthy (x : option bool) : bool := default false x.

Definition nonzero (x : option Z) : bool :=
  match x with
  | Some n => negb (n =? 0)
  | None => false
  end.

(** [text || fallback] *)
Definition or_else (text : option string) (fallback : string) : string :=
  match text with
  | Some (String c r) => String c r
  | Some EmptyString | None => fallback
  end.

(** [a === b] for a number [a] and a number or undefined [b]. *)
Definition strict_eq (a : Z) (b : option Z) : bool :=
  match b with
  | Some n => a =? n
  | None => false
  end.

(** *** The handler *)

(** The two mutable locals of the handler. *)
Record Locals : Type := {
  needsFinalUpdate : bool;
  updates : list Variables.t;
}.

(** [updates.push(x)] for each [x] of [xs], in order. *)
Definition push_all (xs : list Variables.t) (st : Locals) : Locals :=
  {| needsFinalUpdate := needsFinalUpdate st; updates := updates st ++ xs |}.

(** [needsFinalUpdate = false] *)
Definition clear (st : Locals) : Locals :=
  {| needsFinalUpdate := false; updates := updates st |}.

Section Handler.

Variable submission : Submission.t.

Definition variables : Variables.t :=
  {| Variables.metadataId := Submission.metadataId submission;
     Variables.progress := 100;
     Variables.date := Submission.date submission;
     Variables.showSeasonNumber := Submission.showSeasonNumber submission;
     Variables.showEpisodeNumber := Submission.showEpisodeNumber submission;
     Variables.podcastEpisodeNumber := Submission.podcastEpisodeNumber submission;
     Variables.animeEpisodeNumber := Submission.animeEpisodeNumber submission;
     Variables.mangaChapterNumber := Submission.mangaChapterNumber submission |}.

(** [for (let i = 1; i <= n; i++)]: the values of [i], in order. *)
Definition upto (n : option Z) : list Z := seqZ 1 (default 0 n).

Definition anime (st : Locals) : Locals :=
  if decide (Submission.metadataLot submission = Anime) then
    if nonzero (Submission.animeEpisodeNumber submission) then
      if truthy (Submission.animeAllEpisodesBefore submission) then
        clear (push_all
          (map (λ i, Variables.with_animeEpisodeNumber i variables)
             (upto (Submission.animeEpisodeNumber submission))) st)
      else st
    else st
  else st.

Definition manga (st : Locals) : Locals :=
  if decide (Submission.metadataLot submission = Manga) then
    if nonzero (Submission.mangaChapterNumber submission) then
      if truthy (Submission.mangaAllChaptersBefore submission) then
        clear (push_all
          (map (λ i, Variables.with_mangaChapterNumber i variables)
             (upto (Submission.mangaChapterNumber submission))) st)
      else st
    else st
  else st.

(** The inner loop over the episodes of one season, with both numbers set. *)
Definition season_records (season : Season) : list Variables.t :=
  map (λ episode,
         Variables.with_showEpisodeNumber episode
           (Variables.with_showSeasonNumber (seasonNumber season) variables))
    (episodes season).

(** [for (const season of showSpecifics)] with its [break]. *)
Fixpoint seasons_before (selectedSeason : Season) (showSpecifics : list Season)
    (st : Locals) : Locals :=
  match showSpecifics with
  | [] => st
  | season :: rest =>
      if seasonNumber selectedSeason <? seasonNumber season then st
      else seasons_before selectedSeason rest
             (push_all (season_records season) st)
  end.

Definition complete_show (showSpecifics : list Season) (st : Locals) : Locals :=
  if truthy (Submission.completeShow submission) then
    clear (foldl (λ st season, push_all (season_records season) st)
             st showSpecifics)
  else st.

Definition only_season (showSpecifics : list Season) (st : Locals)
  : outcome Locals :=
  if truthy (Submission.onlySeason submission) then
    match find (λ s, strict_eq (seasonNumber s)
                       (Submission.showSeasonNumber submission))
            showSpecifics with
    | None => Throws (InvariantError "No season selected")
    | Some selectedSeason =>
        let st := clear st in
        if truthy (Submission.showAllSeasonsBefore submission) then
          Returns (seasons_before selectedSeason showSpecifics st)
        else
          Returns (push_all
            (map (λ episode, Variables.with_showEpisodeNumber episode variables)
               (episodes selectedSeason)) st)
    end
  else Returns st.

Definition show (showSpecifics : list Season) (st : Locals) : outcome Locals :=
  if decide (Submission.metadataLot submission = Show) then
    only_season showSpecifics (complete_show showSpecifics st)
  else Returns st.

Definition podcast (podcastSpecifics : list PodcastEpisode) (st : Locals)
  : Locals :=
  if decide (Submission.metadataLot submission = Podcast) then
    if truthy (Submission.completePodcast submission) then
      clear (push_all
        (map (λ episode,
                Variables.with_podcastEpisodeNumber (episodeNumber episode)
                  variables)
           podcastSpecifics) st)
    else st
  else st.

(** [if (needsFinalUpdate) updates.push(variables)], then the list. *)
Definition final (st : Locals) : list Variables.t :=
  if needsFinalUpdate st then updates st ++ [variables] else updates st.

(** The handler from the line after the two structures are parsed to the
    list it hands to the bulk update. *)
Definition expand (showSpecifics : list Season)
    (podcastSpecifics : list PodcastEpisode) : outcome (list Variables.t) :=
  let st := {| needsFinalUpdate := true; updates := [] |} in
  let st := anime st in
  let st := manga st in
  st ← show showSpecifics st;
  let st := podcast podcastSpecifics st in
  Returns (final st).

(** The handler from the parsed submission on: [input] of the request. *)
Definition progressUpdate : outcome (list Variables.t) :=
  showSpecifics ←
    Json.parse (or_else (Submission.showSpecifics submission) "[]")
      ≫= showSpecificsSchema;
  podcastSpecifics ←
    Json.parse (or_else (Submission.podcastSpecifics submission) "[]")
      ≫= podcastSpecificsSchema;
  expand showSpecifics podcastSpecifics.

End Handler.

(** ** The import form *)

(** The sources the handler matches on; its match is exhaustive. *)
Inductive ImportSource : Type :=
  | Goodreads | Trakt | Audiobookshelf | MediaTracker | Movary | StoryGraph
  | Mal | StrongApp | MediaJson | PeopleJson | WorkoutsJson | MeasurementsJson.

#[global] Instance ImportSource_eq_dec : EqDecision ImportSource.
Proof. solve_decision. Defined.

(** The two field schemas the import forms use: [z.string()] and
    [z.string().url()]. *)
Inductive ZString : Type := z_string | z_string_url.

(** [z.object({ ... })]: the keys in the order they are written. *)
Definition ZObject : Type := list (string * ZString).

Definition mediaTrackerImportFormSchema : ZObject :=
  [("apiUrl", z_string_url); ("apiKey", z_string)].

Definition audiobookshelfImportFormSchema : ZObject :=
  [("apiUrl", z_string_url); ("apiKey", z_string)].

Definition traktImportFormSchema : ZObject := [("username", z_string)].

Definition goodreadsImportFormSchema : ZObject := [("csvPath", z_string)].

Definition movaryImportFormSchema : ZObject :=
  [("ratings", z_string); ("history", z_string); ("watchlist", z_string)].

Definition storyGraphImportFormSchema : ZObject := [("export", z_string)].

Definition strongAppImportFormSchema : ZObject :=
  [("exportPath", z_string); ("mapping", z_string)].

Definition jsonImportFormSchema : ZObject := [("export", z_string)].

Definition malImportFormSchema : ZObject :=
  [("animePath", z_string); ("mangaPath", z_string)].

(** The submitted fields: names to strings (an uploaded file is the path it
    was stored under). *)
Abbreviation FormData := (gmap string string).

(** The [input] of the import job: [{ source, ...values }], where [values]
    is an object from variant names to the variants' objects. *)
Module Input.
Record t : Type := {
  source : ImportSource;
  values : gmap string (gmap string jsvalue);
}.
End Input.

Section Dispatch.

(** [processSubmission] lives in [~/lib/utilities.server]; the handler is
    read here for any such function. *)
Variable processSubmission : FormData → ZObject → outcome (gmap string string).

(** An object whose fields are the strings of [o]. *)
Definition object (o : gmap string string) : gmap string jsvalue :=
  JString <$> o.

(** [JSON.parse(newLocal.mapping)]; a missing property reads as the text
    [undefined]. *)
Definition parse_mapping (newLocal : gmap string string) : outcome jsvalue :=
  Json.parse (default "undefined" (newLocal !! "mapping")).

(** The [match(source)...exhaustive()] of the handler; [source] is the
    form's field of that name at the type the handler casts it to. *)
Definition deployImport (source : ImportSource) (formData : FormData)
  : outcome Input.t :=
  values ←
    match source with
    | Goodreads =>
        o ← processSubmission formData goodreadsImportFormSchema;
        Returns {[ "goodreads" := object o ]}
    | Trakt =>
        o ← processSubmission formData traktImportFormSchema;
        Returns {[ "trakt" := object o ]}
    | Audiobookshelf =>
        o ← processSubmission formData audiobookshelfImportFormSchema;
        Returns {[ "audiobookshelf" := object o ]}
    | MediaTracker =>
        o ← processSubmission formData mediaTrackerImportFormSchema;
        Returns {[ "mediaTracker" := object o ]}
    | Movary =>
        o ← processSubmission formData movaryImportFormSchema;
        Returns {[ "movary" := object o ]}
    | StoryGraph =>
        o ← processSubmission formData storyGraphImportFormSchema;
        Returns {[ "storyGraph" := object o ]}
    | Mal =>
        o ← processSubmission formData malImportFormSchema;
        Returns {[ "mal" := object o ]}
    | StrongApp =>
        newLocal ← processSubmission formData strongAppImportFormSchema;
        mapping ← parse_mapping newLocal;
        Returns {[ "strongApp" := <["mapping" := mapping]> (object newLocal) ]}
    | MediaJson | PeopleJson | WorkoutsJson | MeasurementsJson =>
        o ← processSubmission formData jsonImportFormSchema;
        Returns {[ "json" := object o ]}
    end;
  Returns {| Input.source := source; Input.values := values |}.

End Dispatch.

Section Validation.

(** Whether a string is a well-formed URL, as [z.string().url()] decides. *)
Variable is_url : string → bool.

Definition z_check (ty : ZString) (v : string) : bool :=
  match ty with
  | z_string => true
  | z_string_url => is_url v
  end.

(** Modelled from the spec: [processSubmission] of [~/lib/utilities.server]
    is not part of the excerpt.  Section 4.2 gives its contract: the fields
    are shaped into the payload of the schema, and the call "fails with
    ValidationError{field} if a required field for the resolved source is
    absent or fails its format check". *)
Fixpoint processSubmission_spec (formData : FormData) (schema : ZObject)
  : outcome (gmap string string) :=
  match schema with
  | [] => Returns ∅
  | (field, ty) :: rest =>
      match formData !! field with
      | Some v =>
          if z_check ty v then
            o ← processSubmission_spec formData rest;
            Returns (<[field := v]> o)
          else Throws (ValidationError field)
      | None => Throws (ValidationError field)
      end
  end.

End Validation.

(** The schema each branch of the handler hands to [processSubmission]. *)
Definition branch_schema (source : ImportSource) : ZObject :=
  match source with
  | Goodreads => goodreadsImportFormSchema
  | Trakt => traktImportFormSchema
  | Audiobookshelf => audiobookshelfImportFormSchema
  | MediaTracker => mediaTrackerImportFormSchema
  | Movary => movaryImportFormSchema
  | StoryGraph => storyGraphImportFormSchema
  | Mal => malImportFormSchema
  | StrongApp => strongAppImportFormSchema
  | MediaJson | PeopleJson | WorkoutsJson | MeasurementsJson =>
      jsonImportFormSchema
  end.

(** ** The spec's tables *)

(** Section 4.2 of the spec: the required fields of each source. *)
Definition required_fields (source : ImportSource) : list string :=
  match source with
  | Goodreads => ["csvPath"]
  | Trakt => ["username"]
  | Audiobookshelf => ["apiUrl"; "apiKey"]
  | MediaTracker => ["apiUrl"; "apiKey"]
  | Movary => ["ratings"; "history"; "watchlist"]
  | StoryGraph => ["export"]
  | Mal => ["animePath"; "mangaPath"]
  | StrongApp => ["exportPath"; "mapping"]
  | MediaJson | PeopleJson | WorkoutsJson | MeasurementsJson => ["export"]
  end.

(** Section 3 of the spec: the payload is a union keyed by the source, the
    four JSON sources sharing one shape. *)
Definition variant (source : ImportSource) : string :=
  match source with
  | Goodreads => "goodreads"
  | Trakt => "trakt"
  | Audiobookshelf => "audiobookshelf"
  | MediaTracker => "mediaTracker"
  | Movary => "movary"
  | StoryGraph => "storyGraph"
  | Mal => "mal"
  | StrongApp => "strongApp"
  | MediaJson | PeopleJson | WorkoutsJson | MeasurementsJson => "json"
  end.

(** A fully populated, valid field set for a source: every required field is
    there, an [apiUrl] is a well-formed URL, a [mapping] is JSON text. *)
Definition fully_populated (is_url : string → bool) (source : ImportSource)
    (formData : FormData) : Prop :=
  Forall (λ field, is_Some (formData !! field)) (required_fields source)
  ∧ (∀ v, In "apiUrl" (required_fields source) →
          formData !! "apiUrl" = Some v → is_url v = true)
  ∧ (∀ v, In "mapping" (required_fields source) →
          formData !! "mapping" = Some v → returns (Json.parse v)).

(** Section 3 of the spec: the intents, read on the fields of the form that
    carry them. *)
Definition AnimeEpisode (episode : option Z) (allBefore : bool)
    (s : Submission.t) : Prop :=
  Submission.metadataLot s = Anime
  ∧ Submission.animeEpisodeNumber s = episode
  ∧ truthy (Submission.animeAllEpisodesBefore s) = allBefore.

Definition MangaChapter (chapter : option Z) (allBefore : bool)
    (s : Submission.t) : Prop :=
  Submission.metadataLot s = Manga
  ∧ Submission.mangaChapterNumber s = chapter
  ∧ truthy (Submission.mangaAllChaptersBefore s) = allBefore.

Definition ShowComplete (s : Submission.t) : Prop :=
  Submission.metadataLot s = Show
  ∧ truthy (Submission.completeShow s) = true
  ∧ truthy (Submission.onlySeason s) = false.

Definition ShowSeason (season : Z) (allSeasonsBefore : bool)
    (s : Submission.t) : Prop :=
  Submission.metadataLot s = Show
  ∧ truthy (Submission.onlySeason s) = true
  ∧ truthy (Submission.completeShow s) = false
  ∧ Submission.showSeasonNumber s = Some season
  ∧ truthy (Submission.showAllSeasonsBefore s) = allSeasonsBefore.

Definition ShowEpisode (season episode : Z) (s : Submission.t) : Prop :=
  Submission.metadataLot s = Show
  ∧ truthy (Submission.onlySeason s) = false
  ∧ truthy (Submission.completeShow s) = false
  ∧ Submission.showSeasonNumber s = Some season
  ∧ Submission.showEpisodeNumber s = Some episode.

Definition PodcastComplete (s : Submission.t) : Prop :=
  Submission.metadataLot s = Podcast
  ∧ truthy (Submission.completePodcast s) = true.

(** The record the spec describes for one (season, episode) pair. *)
Definition pair_record (s : Submission.t) (season episode : Z) : Variables.t :=
  {| Variables.metadataId := Submission.metadataId s;
     Variables.progress := 100;
     Variables.date := Submission.date s;
     Variables.showSeasonNumber := Some season;
     Variables.showEpisodeNumber := Some episode;
     Variables.podcastEpisodeNumber := Submission.podcastEpisodeNumber s;
     Variables.animeEpisodeNumber := Submission.animeEpisodeNumber s;
     Variables.mangaChapterNumber := Submission.mangaChapterNumber s |}.

(** One record per (season, episode) pair of the given seasons, in order. *)
Definition pair_records (s : Submission.t) (seasons : list Season)
  : list Variables.t :=
  flat_map (λ season, map (pair_record s (seasonNumber season)) (episodes season))
    seasons.

(** The seasons visited for a target: those before the first one whose number
    exceeds the target, in structure order. *)
Fixpoint visited (target : Z) (seasons : list Season) : list Season :=
  match seasons with
  | [] => []
  | season :: rest =>
      if target <? seasonNumber season then [] else season :: visited target rest
  end.

(** The common fields of a record are those of the submission. *)
Definition common (s : Submission.t) (r : Variables.t) : Prop :=
  Variables.metadataId r = Submission.metadataId s
  ∧ Variables.date r = Submission.date s
  ∧ Variables.progress r = 100.

(** Two records that differ at most in the anime episode number, and at most
    in the manga chapter number. *)
Definition same_but_anime (r v : Variables.t) : Prop :=
  Variables.metadataId r = Variables.metadataId v
  ∧ Variables.progress r = Variables.progress v
  ∧ Variables.date r = Variables.date v
  ∧ Variables.showSeasonNumber r = Variables.showSeasonNumber v
  ∧ Variables.showEpisodeNumber r = Variables.showEpisodeNumber v
  ∧ Variables.podcastEpisodeNumber r = Variables.podcastEpisodeNumber v
  ∧ Variables.mangaChapterNumber r = Variables.mangaChapterNumber v.

Definition same_but_manga (r v : Variables.t) : Prop :=
  Variables.metadataId r = Variables.metadataId v
  ∧ Variables.progress r = Variables.progress v
  ∧ Variables.date r = Variables.date v
  ∧ Variables.showSeasonNumber r = Variables.showSeasonNumber v
  ∧ Variables.showEpisodeNumber r = Variables.showEpisodeNumber v
  ∧ Variables.podcastEpisodeNumber r = Variables.podcastEpisodeNumber v
  ∧ Variables.animeEpisodeNumber r = Variables.animeEpisodeNumber v.

(** ** Sample inputs *)

Module Sample.

(** A submitted form of item 7 with the date set and nothing else. *)
Definition form (lot : MetadataLot) : Submission.t :=
  {| Submission.metadataLot := lot;
     Submission.date := Some "2024-01-31";
     Submission.redirectTo := None;
     Submission.showSpecifics := None;
     Submission.showAllSeasonsBefore := None;
     Submission.podcastSpecifics := None;
     Submission.onlySeason := None;
     Submission.completeShow := None;
     Submission.completePodcast := None;
     Submission.animeAllEpisodesBefore := None;
     Submission.mangaAllChaptersBefore := None;
     Submission.metadataId := 7;
     Submission.showSeasonNumber := None;
     Submission.showEpisodeNumber := None;
     Submission.podcastEpisodeNumber := None;
     Submission.animeEpisodeNumber := None;
     Submission.mangaChapterNumber := None |}.

Definition show_form (onlySeason completeShow allSeasonsBefore : option bool)
    (season episode : option Z) : Submission.t :=
  {| Submission.metadataLot := Show;
     Submission.date := Some "2024-01-31";
     Submission.redirectTo := None;
     Submission.showSpecifics := None;
     Submission.showAllSeasonsBefore := allSeasonsBefore;
     Submission.podcastSpecifics := None;
     Submission.onlySeason := onlySeason;
     Submission.completeShow := completeShow;
     Submission.completePodcast := None;
     Submission.animeAllEpisodesBefore := None;
     Submission.mangaAllChaptersBefore := None;
     Submission.metadataId := 7;
     Submission.showSeasonNumber := season;
     Submission.showEpisodeNumber := episode;
     Submission.podcastEpisodeNumber := None;
     Submission.animeEpisodeNumber := None;
     Submission.mangaChapterNumber := None |}.

(** An anime form; it also carries show and podcast numbers. *)
Definition anime_form (episode : option Z) (allBefore : option bool)
  : Submission.t :=
  {| Submission.metadataLot := Anime;
     Submission.date := Some "2024-01-31";
     Submission.redirectTo := None;
     Submission.showSpecifics := None;
     Submission.showAllSeasonsBefore := None;
     Submission.podcastSpecifics := None;
     Submission.onlySeason := None;
     Submission.completeShow := None;
     Submission.completePodcast := None;
     Submission.animeAllEpisodesBefore := allBefore;
     Submission.mangaAllChaptersBefore := None;
     Submission.metadataId := 7;
     Submission.showSeasonNumber := Some 4;
     Submission.showEpisodeNumber := Some 2;
     Submission.podcastEpisodeNumber := Some 11;
     Submission.animeEpisodeNumber := episode;
     Submission.mangaChapterNumber := None |}.

Definition manga_form (chapter : option Z) (allBefore : option bool)
  : Submission.t :=
  {| Submission.metadataLot := Manga;
     Submission.date := Some "2024-01-31";
     Submission.redirectTo := None;
     Submission.showSpecifics := None;
     Submission.showAllSeasonsBefore := None;
     Submission.podcastSpecifics := None;
     Submission.onlySeason := None;
     Submission.completeShow := None;
     Submission.completePodcast := None;
     Submission.animeAllEpisodesBefore := None;
     Submission.mangaAllChaptersBefore := allBefore;
     Submission.metadataId := 7;
     Submission.showSeasonNumber := Some 4;
     Submission.showEpisodeNumber := Some 2;
     Submission.podcastEpisodeNumber := Some 11;
     Submission.animeEpisodeNumber := None;
     Submission.mangaChapterNumber := chapter |}.

Definition podcast_form (completePodcast : option bool) : Submission.t :=
  {| Submission.metadataLot := Podcast;
     Submission.date := Some "2024-01-31";
     Submission.redirectTo := None;
     Submission.showSpecifics := None;
     Submission.showAllSeasonsBefore := None;
     Submission.podcastSpecifics := None;
     Submission.onlySeason := None;
     Submission.completeShow := None;
     Submission.completePodcast := completePodcast;
     Submission.animeAllEpisodesBefore := None;
     Submission.mangaAllChaptersBefore := None;
     Submission.metadataId := 7;
     Submission.showSeasonNumber := None;
     Submission.showEpisodeNumber := None;
     Submission.podcastEpisodeNumber := None;
     Submission.animeEpisodeNumber := None;
     Submission.mangaChapterNumber := None |}.

Definition season (n : Z) (es : list Z) : Season :=
  {| seasonNumber := n; episodes := es |}.

(** Seasons 1, 2, 3 with episodes [1,2], [1], [1,2,3]. *)
Definition three_seasons : list Season :=
  [season 1 [1; 2]; season 2 [1]; season 3 [1; 2; 3]].

(** The same seasons with the last two swapped. *)
Definition out_of_order : list Season :=
  [season 1 [1; 2]; season 3 [1; 2; 3]; season 2 [1]].

(** Season 2 has no episode. *)
Definition empty_second : list Season := [season 1 [1; 2]; season 2 []].

(** The text the form submits for [three_seasons]: the quote character is
    written [q]. *)
Definition q : string := String "034" EmptyString.

Definition three_seasons_text : string :=
  "[{" +:+ q +:+ "seasonNumber" +:+ q +:+ ":1," +:+ q +:+ "episodes" +:+ q +:+ ":[1,2]},"
  +:+ "{" +:+ q +:+ "seasonNumber" +:+ q +:+ ":2," +:+ q +:+ "episodes" +:+ q +:+ ":[1]},"
  +:+ " {" +:+ q +:+ "seasonNumber" +:+ q +:+ ": 3, " +:+ q +:+ "episodes" +:+ q +:+ ": [1, 2, 3]} ]".

(** A season-level form for season 2 that carries that text. *)
Definition season_two_form : Submission.t :=
  {| Submission.metadataLot := Show;
     Submission.date := Some "2024-01-31";
     Submission.redirectTo := None;
     Submission.showSpecifics := Some three_seasons_text;
     Submission.showAllSeasonsBefore := Some true;
     Submission.podcastSpecifics := None;
     Submission.onlySeason := Some true;
     Submission.completeShow := None;
     Submission.completePodcast := None;
     Submission.animeAllEpisodesBefore := None;
     Submission.mangaAllChaptersBefore := None;
     Submission.metadataId := 7;
     Submission.showSeasonNumber := Some 2;
     Submission.showEpisodeNumber := None;
     Submission.podcastEpisodeNumber := None;
     Submission.animeEpisodeNumber := None;
     Submission.mangaChapterNumber := None |}.

(** A URL check for the samples: the text starts with a scheme. *)
Definition is_url (v : string) : bool :=
  String.prefix "http://" v || String.prefix "https://" v.

Definition strong_fields (mapping : string) : FormData :=
  {[ "exportPath" := "x.csv"; "mapping" := mapping ]}.

Definition tracker_fields : FormData :=
  {[ "apiUrl" := "https://tracker.example"; "apiKey" := "k" ]}.

End Sample.

(** ** What the page shows and submits *)

(** The parts of the GraphQL answers that the page reads. *)
Module Graphql.
Record Episode : Type := {
  episodeNumber : Z;
  name : string;
  runtime : option Z;
}.

Record Season : Type := {
  seasonNumber : Z;
  seasonName : string;
  episodes : list Episode;
}.

Record PodcastEpisode : Type := { number : Z; title : string }.

(** An item of the user's history; [showExtraInformation] is the pair
    (season, episode). *)
Record Seen : Type := {
  progress : Z;
  showExtraInformation : option (Z * Z);
  podcastExtraInformation : option Z;
}.
End Graphql.

(** *** [JSON.stringify] on what the progress form serialises *)

(** The decimal digits of a natural number, in front of [rest]. *)
Fixpoint write_digits (fuel : nat) (n : Z) (rest : string) : string :=
  match fuel with
  | O => rest
  | S fuel =>
      let rest := String (Json.char (48 + n mod 10)) rest in
      if n <? 10 then rest else write_digits fuel (n / 10) rest
  end.

(** An integer as [JSON.stringify] writes it: a number of d decimal digits
    is below 2^(4d), so [log2 n + 1] digits are never too few. *)
Definition write_number (n : Z) (rest : string) : string :=
  if n <? 0
  then String "-" (write_digits (S (Z.to_nat (Z.log2 (- n)))) (- n) rest)
  else write_digits (S (Z.to_nat (Z.log2 n))) n rest.

(** The elements of an array, with commas between them. *)
Fixpoint write_elements {A} (write : A → string → string) (xs : list A)
    (rest : string) : string :=
  match xs with
  | [] => rest
  | x :: xs' =>
      match xs' with
      | [] => write x rest
      | _ :: _ => write x (String "," (write_elements write xs' rest))
      end
  end.

Definition write_array {A} (write : A → string → string) (xs : list A)
    (rest : string) : string :=
  String "[" (write_elements write xs (String "]" rest)).

(** A property name, quoted, and the colon after it. *)
Definition write_key (k : string) (rest : string) : string :=
  String "034" (k ++ String "034" (String ":" rest)).

(** [{ seasonNumber: ..., episodes: [...] }] *)
Definition write_season (s : Season) (rest : string) : string :=
  String "{"
    (write_key "seasonNumber"
       (write_number (seasonNumber s)
          (String ","
             (write_key "episodes"
                (write_array write_number (episodes s) (String "}" rest)))))).

(** [{ episodeNumber: ... }] *)
Definition write_podcast_episode (e : PodcastEpisode) (rest : string) : string :=
  String "{"
    (write_key "episodeNumber"
       (write_number (episodeNumber e) (String "}" rest))).

(** The hidden field [showSpecifics] of the progress form:
    [JSON.stringify(showSpecifics?.seasons.map(...))], which is undefined
    when the item has no show specifics. *)
Definition form_seasons (seasons : list Graphql.Season) : list Season :=
  map (λ s, {| seasonNumber := Graphql.seasonNumber s;
               episodes := map Graphql.episodeNumber (Graphql.episodes s) |})
    seasons.

Definition showSpecifics_field (showSpecifics : option (list Graphql.Season))
  : option string :=
  (λ seasons, write_array write_season (form_seasons seasons) EmptyString)
    <$> showSpecifics.

(** The hidden field [podcastSpecifics], likewise. *)
Definition form_podcast_episodes (eps : list Graphql.PodcastEpisode)
  : list PodcastEpisode :=
  map (λ e, {| episodeNumber := Graphql.number e |}) eps.

Definition podcastSpecifics_field
    (podcastSpecifics : option (list Graphql.PodcastEpisode)) : option string :=
  (λ eps, write_array write_podcast_episode (form_podcast_episodes eps)
            EmptyString)
    <$> podcastSpecifics.

(** The characters that follow a value inside an array or an object. *)
Definition delimiter (rest : string) : Prop :=
  ∃ c r, rest = String c r ∧ (c = "," ∨ c = "]" ∨ c = "}")%char.

(** A text whose first character starts a value. *)
Definition starts_value (s : string) : Prop :=
  ∃ c r, s = String c r ∧ Json.is_ws c = false ∧ Ascii.eqb c "]" = false.

Ltac digit_cases d :=
  let H := fresh in
  assert (H : d = 0 ∨ d = 1 ∨ d = 2 ∨ d = 3 ∨ d = 4 ∨ d = 5 ∨ d = 6 ∨ d = 7
              ∨ d = 8 ∨ d = 9) by lia;
  destruct H as [->|[->|[->|[->|[->|[->|[->|[->|[->| ->]]]]]]]]].

(** The JSON values of what the form serialises. *)
Definition number_json (n : Z) : jsvalue := JNumber n 0.

Definition season_json (s : Season) : jsvalue :=
  JObject [("seasonNumber", number_json (seasonNumber s));
           ("episodes", JArray (map number_json (episodes s)))].

Definition podcast_episode_json (e : PodcastEpisode) : jsvalue :=
  JObject [("episodeNumber", number_json (episodeNumber e))].

(** *** The indicators of the seasons and episodes tabs *)

(** The test on an item of the history for an episode of a show:
    [h.progress === 100 && h.showExtraInformation &&
     h.showExtraInformation.episode === e && h.showExtraInformation.season === s]. *)
Definition seen_episode (season episode : Z) (h : Graphql.Seen) : bool :=
  (Graphql.progress h =? 100)
  && match Graphql.showExtraInformation h with
     | Some (s', e') => (e' =? episode) && (s' =? season)
     | None => false
     end.

(** [displayIndicator] of an episode: [history.filter(...).length || 0]. *)
Definition episode_indicator (history : list Graphql.Seen) (season episode : Z)
  : nat :=
  length (List.filter (seen_episode season episode) history).

(** [displayIndicator] of a season: 1 when it has an episode and
    [every] episode has [some] such item, else 0. *)
Definition season_indicator (history : list Graphql.Seen) (s : Graphql.Season)
  : nat :=
  if (0 <? length (Graphql.episodes s))%nat
     && forallb (λ e, existsb (seen_episode (Graphql.seasonNumber s)
                                 (Graphql.episodeNumber e)) history)
          (Graphql.episodes s)
  then 1%nat else 0%nat.

(** The test for an episode of a podcast:
    [h.podcastExtraInformation?.episode === e.number]. *)
Definition seen_podcast_episode (episode : Z) (h : Graphql.Seen) : bool :=
  match Graphql.podcastExtraInformation h with
  | Some e' => e' =? episode
  | None => false
  end.

Definition podcast_indicator (history : list Graphql.Seen) (episode : Z) : nat :=
  length (List.filter (seen_podcast_episode episode) history).

(** *** The line of an item of the history *)

(** [displayShowExtraInformation] of [SeenItem]: the episode is looked up by
    season and then by episode number, and the line is
    [S<season>-E<episode>: <name>] or null. *)
Definition displayShowExtraInformation
    (showSpecifics : option (list Graphql.Season)) (h : Graphql.Seen)
  : option string :=
  '(season, episode) ← Graphql.showExtraInformation h;
  seasons ← showSpecifics;
  s ← find (λ s, Graphql.seasonNumber s =? season) seasons;
  e ← find (λ e, Graphql.episodeNumber e =? episode) (Graphql.episodes s);
  Some ("S" +:+ write_number season ("-E" +:+ write_number episode
          (": " +:+ Graphql.name e))).

(** *** The import and export forms *)

(** The names of the inputs the import form renders for a source, in the
    order it renders them. *)
Definition form_inputs (source : ImportSource) : list string :=
  match source with
  | MediaTracker => ["apiUrl"; "apiKey"]
  | Audiobookshelf => ["apiUrl"; "apiKey"]
  | Goodreads => ["csvPath"]
  | Trakt => ["username"]
  | Movary => ["history"; "ratings"; "watchlist"]
  | StoryGraph => ["export"]
  | Mal => ["animePath"; "mangaPath"]
  | StrongApp => ["exportPath"; "mapping"]
  | MediaJson | PeopleJson | WorkoutsJson | MeasurementsJson => ["export"]
  end.

(** [v.split(",")] *)
Fixpoint split_commas (v : string) : list string :=
  match v with
  | EmptyString => [EmptyString]
  | String c r =>
      if Ascii.eqb c "," then EmptyString :: split_commas r
      else
        match split_commas r with
        | piece :: pieces => String c piece :: pieces
        | [] => [String c EmptyString]
        end
  end.

(** The transform of [deployExportForm] on the field [toExport]. *)
Definition toExport (v : string) : list string := split_commas v.

(** [items.join(",")] *)
Definition join_commas (items : list string) : string :=
  String.concat "," items.

(** A text without a comma. *)
Definition comma_free (item : string) : Prop :=
  ∀ c, In c (list_ascii_of_string item) → c ≠ ","%char.

(** Sample answers of the API: a show with seasons 1, 2, 3 and a podcast
    with episodes 5, 6. *)
Module PageSample.
Definition episode (n : Z) : Graphql.Episode :=
  {| Graphql.episodeNumber := n; Graphql.name := "Episode";
     Graphql.runtime := Some 42 |}.

Definition season (n : Z) (es : list Z) : Graphql.Season :=
  {| Graphql.seasonNumber := n; Graphql.seasonName := "Season";
     Graphql.episodes := map episode es |}.

Definition seasons : list Graphql.Season :=
  [season 1 [1; 2]; season 2 [1]; season 3 [1; 2; 3]].

Definition podcast : list Graphql.PodcastEpisode :=
  [{| Graphql.number := 5; Graphql.title := "Five" |};
   {| Graphql.number := 6; Graphql.title := "Six" |}].

(** The form a button of the seasons tab opens, submitted: a season-level
    form for season [n] with the structure of the page. *)
Definition season_button (n : Z) : Submission.t :=
  {| Submission.metadataLot := Show;
     Submission.date := None;
     Submission.redirectTo := None;
     Submission.showSpecifics := showSpecifics_field (Some seasons);
     Submission.showAllSeasonsBefore := None;
     Submission.podcastSpecifics := None;
     Submission.onlySeason := Some true;
     Submission.completeShow := None;
     Submission.completePodcast := None;
     Submission.animeAllEpisodesBefore := None;
     Submission.mangaAllChaptersBefore := None;
     Submission.metadataId := 7;
     Submission.showSeasonNumber := Some n;
     Submission.showEpisodeNumber := None;
     Submission.podcastEpisodeNumber := None;
     Submission.animeEpisodeNumber := None;
     Submission.mangaChapterNumber := None |}.
End PageSample.

(** * Properties *)

(** ** [JSON.parse] and the schemas on sample texts *)

Example parse_empty_array : Json.parse "[]" = Returns (JArray []).
Proof. reflexivity. Qed.

Example parse_not_json :
  Json.parse "not json" = Throws (SyntaxError "not json").
Proof. reflexivity. Qed.

Example parse_nested :
  Json.parse " [[ ], {}, [null, true, false, -12.50e1]] "
  = Returns (JArray [JArray []; JObject [];
                     JArray [JNull; JBool true; JBool false; JNumber (-1250) (-1)]]).
Proof. reflexivity. Qed.

Example parse_rejects :
  Forall (λ text, Json.parse text = Throws (SyntaxError text))
    ["[1,]"; "[,1]"; "[1 2]"; "{1:2}"; "01"; "1."; "1e"; "-"; "+1"; "nul";
     "nulll"; "[] []"; "["; "undefined"; " "].
Proof. repeat constructor. Qed.

Example parse_three_seasons :
  Json.parse Sample.three_seasons_text ≫= showSpecificsSchema
  = Returns Sample.three_seasons.
Proof. reflexivity. Qed.

Example schema_rejects :
  Json.parse "[1]" ≫= showSpecificsSchema = Throws ZodError
  ∧ Json.parse "{}" ≫= podcastSpecificsSchema = Throws ZodError.
Proof. split; reflexivity. Qed.

(** The whole handler on a season-level form with its structure as text. *)
Example progressUpdate_season_two :
  progressUpdate Sample.season_two_form
  = Returns [pair_record Sample.season_two_form 1 1;
             pair_record Sample.season_two_form 1 2;
             pair_record Sample.season_two_form 2 1].
Proof. reflexivity. Qed.

(** ** The blocks of the handler *)

Section Blocks.

Variable s : Submission.t.

Lemma variables_pair_record season episode :
  Variables.with_showEpisodeNumber episode
    (Variables.with_showSeasonNumber season (variables s))
  = pair_record s season episode.
Proof. reflexivity. Qed.

Lemma season_records_pairs season :
  season_records s season
  = map (pair_record s (seasonNumber season)) (episodes season).
Proof. reflexivity. Qed.

Lemma push_all_app xs ys st :
  push_all ys (push_all xs st) = push_all (xs ++ ys) st.
Proof. unfold push_all; simpl. by rewrite app_assoc. Qed.

Lemma push_all_nil st : push_all [] st = st.
Proof. destruct st; unfold push_all; simpl. by rewrite app_nil_r. Qed.

(** The loop of [completeShow] pushes the records of every season. *)
Lemma complete_loop seasons st :
  foldl (λ st season, push_all (season_records s season) st) st seasons
  = push_all (pair_records s seasons) st.
Proof.
  revert st; induction seasons as [|season rest IH]; intros st; simpl.
  - by rewrite push_all_nil.
  - rewrite IH, push_all_app. reflexivity.
Qed.

(** The loop of [showAllSeasonsBefore] pushes the records of the visited
    seasons and of no other. *)
Lemma seasons_before_visited selected seasons st :
  seasons_before s selected seasons st
  = push_all (pair_records s (visited (seasonNumber selected) seasons)) st.
Proof.
  revert st; induction seasons as [|season rest IH]; intros st; simpl.
  - by rewrite push_all_nil.
  - destruct (seasonNumber selected <? seasonNumber season); simpl.
    + by rewrite push_all_nil.
    + rewrite IH, push_all_app. reflexivity.
Qed.

Lemma anime_other st :
  Submission.metadataLot s ≠ Anime → anime s st = st.
Proof. intros H. unfold anime. by rewrite decide_False. Qed.

Lemma manga_other st :
  Submission.metadataLot s ≠ Manga → manga s st = st.
Proof. intros H. unfold manga. by rewrite decide_False. Qed.

Lemma show_other seasons st :
  Submission.metadataLot s ≠ Show → show s seasons st = Returns st.
Proof. intros H. unfold show. by rewrite decide_False. Qed.

Lemma podcast_other eps st :
  Submission.metadataLot s ≠ Podcast → podcast s eps st = st.
Proof. intros H. unfold podcast. by rewrite decide_False. Qed.

(** [find] with the strict comparison: what it returns has the number
    looked for, and it returns nothing only when no season has it. *)
Lemma find_season_Some target seasons selected :
  find (λ x, strict_eq (seasonNumber x) target) seasons = Some selected →
  selected ∈ seasons ∧ target = Some (seasonNumber selected).
Proof.
  intros H. apply find_some in H as [Hin Heq]. split.
  - by apply list_elem_of_In.
  - destruct target as [t|]; simpl in Heq; [|done].
    apply Z.eqb_eq in Heq. by subst.
Qed.

Lemma find_season_None target seasons :
  find (λ x, strict_eq (seasonNumber x) target) seasons = None ↔
  ∀ season, season ∈ seasons → target ≠ Some (seasonNumber season).
Proof.
  split.
  - intros H season Hin ->.
    apply list_elem_of_In in Hin. apply (find_none _ _ H) in Hin.
    simpl in Hin. by rewrite Z.eqb_refl in Hin.
  - intros H. destruct (find _ seasons) as [x|] eqn:E; [|done].
    apply find_season_Some in E as [Hin ->]. by destruct (H x Hin).
Qed.

Lemma find_season_is_Some target seasons :
  target ∈ map seasonNumber seasons →
  ∃ selected, find (λ x, strict_eq (seasonNumber x) (Some target)) seasons
              = Some selected
              ∧ selected ∈ seasons ∧ seasonNumber selected = target.
Proof.
  intros Hin.
  destruct (find _ seasons) as [x|] eqn:E.
  - exists x. pose proof (find_season_Some _ _ _ E) as [? Heq].
    split; [done|]. split; [done|]. by injection Heq.
  - exfalso. apply list_elem_of_fmap in Hin as [season [-> Hs]].
    rewrite find_season_None in E. by apply (E season Hs).
Qed.

(** *** The common fields along the handler *)

Lemma common_variables : common s (variables s).
Proof. by repeat split. Qed.

Lemma common_push xs st :
  Forall (common s) xs → Forall (common s) (updates st) →
  Forall (common s) (updates (push_all xs st)).
Proof. intros Hxs Hst. unfold push_all; simpl. by apply Forall_app. Qed.

Lemma common_map {A} (f : A → Variables.t) (xs : list A) :
  (∀ x, common s (f x)) → Forall (common s) (map f xs).
Proof. intros H. apply Forall_map, Forall_forall. intros x _. apply H. Qed.

Lemma common_pairs seasons : Forall (common s) (pair_records s seasons).
Proof.
  unfold pair_records. induction seasons as [|season rest IH]; simpl.
  - constructor.
  - apply Forall_app. split; [|done].
    apply common_map. intros episode. by repeat split.
Qed.

Lemma common_anime st :
  Forall (common s) (updates st) → Forall (common s) (updates (anime s st)).
Proof.
  intros H. unfold anime. repeat case_match; try done.
  apply (common_push _ st); [|done].
  apply common_map. intros i. by repeat split.
Qed.

Lemma common_manga st :
  Forall (common s) (updates st) → Forall (common s) (updates (manga s st)).
Proof.
  intros H. unfold manga. repeat case_match; try done.
  apply (common_push _ st); [|done].
  apply common_map. intros i. by repeat split.
Qed.

Lemma common_show seasons st st' :
  Forall (common s) (updates st) → show s seasons st = Returns st' →
  Forall (common s) (updates st').
Proof.
  intros H. unfold show, only_season, complete_show.
  repeat case_match; intros [= <-];
    rewrite ?complete_loop, ?seasons_before_visited; simpl;
    repeat (apply Forall_app; split);
    try done; try apply common_pairs;
    apply common_map; intros i; by repeat split.
Qed.

Lemma common_podcast eps st :
  Forall (common s) (updates st) →
  Forall (common s) (updates (podcast s eps st)).
Proof.
  intros H. unfold podcast. repeat case_match; try done.
  apply (common_push _ st); [|done].
  apply common_map. intros i. by repeat split.
Qed.

Lemma common_final st :
  Forall (common s) (updates st) → Forall (common s) (final s st).
Proof.
  intros H. unfold final. case_match; [|done].
  apply Forall_app. split; [done|]. constructor; [|constructor].
  apply common_variables.
Qed.

(** The two parsed structures of a form that carries neither. *)
Lemma progressUpdate_missing :
  Submission.showSpecifics s = None → Submission.podcastSpecifics s = None →
  progressUpdate s = expand s [] [].
Proof. intros H1 H2. unfold progressUpdate. rewrite H1, H2. reflexivity. Qed.

End Blocks.

(** ** Show forms *)

(** The show block on a season-level form with [showAllSeasonsBefore] whose
    season is in the structure. *)
Lemma show_block_all_before
    (s : Submission.t) (target : Z) (seasons : list Season) (st : Locals) :
  ShowSeason target true s →
  target ∈ map seasonNumber seasons →
  show s seasons st
  = Returns (push_all (pair_records s (visited target seasons)) (clear st)).
Proof.
  intros (Hlot & Honly & Hcomplete & Hnum & Hall) Hin.
  unfold show, complete_show, only_season.
  rewrite decide_True by done.
  rewrite Hcomplete, Honly, Hnum, Hall.
  destruct (find_season_is_Some target seasons Hin) as (sel & -> & _ & Hsel).
  rewrite seasons_before_visited, Hsel. reflexivity.
Qed.

(** C1. For a ShowSeason intent with allSeasonsBefore set whose target
    season number occurs in the structure, the handler returns one record
    per episode of each visited season, in structure order, where the
    seasons visited are those before the first season whose number exceeds
    the target: a season after that point is not visited, whatever its
    number. *)
Theorem show_season_all_before
    (s : Submission.t) (target : Z) (seasons : list Season)
    (eps : list PodcastEpisode) :
  ShowSeason target true s →
  target ∈ map seasonNumber seasons →
  expand s seasons eps = Returns (pair_records s (visited target seasons)).
Proof.
  intros Hs Hin. pose proof Hs as (Hlot & _).
  unfold expand.
  rewrite anime_other, manga_other by (rewrite Hlot; discriminate).
  rewrite (show_block_all_before s target seasons _ Hs Hin). simpl.
  rewrite podcast_other by (rewrite Hlot; discriminate).
  reflexivity.
Qed.

(** The example of C1, seasons 1, 2, 3 with episodes [1,2], [1], [1,2,3] and
    target 2, and the same seasons with 3 placed before 2. *)
Lemma show_season_all_before_witness :
  let s := Sample.show_form (Some true) None (Some true) (Some 2) None in
  ShowSeason 2 true s
  ∧ 2 ∈ map seasonNumber Sample.three_seasons
  ∧ expand s Sample.three_seasons []
    = Returns [pair_record s 1 1; pair_record s 1 2; pair_record s 2 1]
  ∧ expand s Sample.out_of_order []
    = Returns [pair_record s 1 1; pair_record s 1 2].
Proof.
  intros s.
  assert (H : ShowSeason 2 true s) by (repeat split; reflexivity).
  assert (H1 : 2 ∈ map seasonNumber Sample.three_seasons)
    by (simpl; repeat constructor).
  assert (H2 : 2 ∈ map seasonNumber Sample.out_of_order)
    by (simpl; repeat constructor).
  split; [exact H|]. split; [exact H1|]. split.
  - exact (show_season_all_before s 2 Sample.three_seasons [] H H1).
  - exact (show_season_all_before s 2 Sample.out_of_order [] H H2).
Defined.

(** C3. For a ShowComplete intent and any structure, the handler returns one
    record per (season, episode) pair, in the structure's season order and
    each season's episode order, and nothing after them: as many records as
    the seasons have episodes. *)
Theorem show_complete
    (s : Submission.t) (seasons : list Season) (eps : list PodcastEpisode) :
  ShowComplete s →
  expand s seasons eps = Returns (pair_records s seasons)
  ∧ length (pair_records s seasons)
    = sum_list_with (λ season, length (episodes season)) seasons.
Proof.
  intros (Hlot & Hcomplete & Honly). split.
  - unfold expand.
    rewrite anime_other, manga_other by (rewrite Hlot; discriminate).
    unfold show, complete_show, only_season.
    rewrite decide_True by done.
    rewrite Hcomplete, Honly. simpl.
    rewrite podcast_other by (rewrite Hlot; discriminate).
    rewrite complete_loop. reflexivity.
  - unfold pair_records. induction seasons as [|season rest IH]; simpl; [done|].
    rewrite length_app, length_map, IH. reflexivity.
Qed.

Lemma show_complete_witness :
  let s := Sample.show_form None (Some true) None None None in
  ShowComplete s
  ∧ expand s Sample.three_seasons []
    = Returns [pair_record s 1 1; pair_record s 1 2; pair_record s 2 1;
               pair_record s 3 1; pair_record s 3 2; pair_record s 3 3].
Proof.
  intros s.
  assert (H : ShowComplete s) by (repeat split; reflexivity).
  split; [exact H|].
  exact (proj1 (show_complete s Sample.three_seasons [] H)).
Defined.

(** C2, as the handler has it.  The handler throws exactly when the item is
    a show, the form is season-level ([onlySeason]) and no season of the
    structure has the submitted season number; what it throws then is the
    invariant "No season selected".  A form that carries no structure is
    handled as one with the empty structure, and a ShowEpisode intent is not
    looked up in the structure: it returns its single record. *)
Theorem expand_throws_iff
    (s : Submission.t) (seasons : list Season) (eps : list PodcastEpisode) :
  (throws (expand s seasons eps) ↔
     Submission.metadataLot s = Show
     ∧ truthy (Submission.onlySeason s) = true
     ∧ ∀ season, season ∈ seasons →
         Submission.showSeasonNumber s ≠ Some (seasonNumber season))
  ∧ (throws (expand s seasons eps) →
     expand s seasons eps = Throws (InvariantError "No season selected"))
  ∧ (Submission.showSpecifics s = None → Submission.podcastSpecifics s = None →
     progressUpdate s = expand s [] [])
  ∧ (∀ season episode, ShowEpisode season episode s →
     expand s seasons eps = Returns [variables s]).
Proof.
  assert (Hcases :
    (Submission.metadataLot s = Show
     ∧ truthy (Submission.onlySeason s) = true
     ∧ (∀ season, season ∈ seasons →
          Submission.showSeasonNumber s ≠ Some (seasonNumber season))
     ∧ expand s seasons eps = Throws (InvariantError "No season selected"))
    ∨ (¬ (Submission.metadataLot s = Show
          ∧ truthy (Submission.onlySeason s) = true
          ∧ ∀ season, season ∈ seasons →
              Submission.showSeasonNumber s ≠ Some (seasonNumber season))
       ∧ returns (expand s seasons eps))).
  { unfold expand, show, only_season.
    destruct (decide (Submission.metadataLot s = Show)) as [Hlot|Hlot].
    - destruct (truthy (Submission.onlySeason s)) eqn:Honly.
      + destruct (find _ seasons) as [sel|] eqn:Hfind.
        * right. split.
          -- intros (_ & _ & Hno).
             apply find_season_Some in Hfind as [Hin Heq]. by apply (Hno sel).
          -- simpl. case_match; eexists; reflexivity.
        * left. rewrite find_season_None in Hfind. by repeat split.
      + right. split; [intros (_ & ? & _); done|]. eexists; reflexivity.
    - right. split; [intros (? & _); done|]. eexists; reflexivity. }
  split; [|split; [|split]].
  - split.
    + intros [e He]. destruct Hcases as [(? & ? & ? & _)|[_ [l Hl]]]; [done|].
      congruence.
    + intros H. destruct Hcases as [(_ & _ & _ & ->)|[Hn _]]; [|done].
      by eexists.
  - intros [e He]. destruct Hcases as [(_ & _ & _ & ?)|[_ [l Hl]]]; [done|].
    congruence.
  - apply progressUpdate_missing.
  - intros season episode (Hlot & Honly & Hcomplete & _ & _).
    unfold expand.
    rewrite anime_other, manga_other by (rewrite Hlot; discriminate).
    unfold show, complete_show, only_season.
    rewrite decide_True by done.
    rewrite Hcomplete, Honly. simpl.
    rewrite podcast_other by (rewrite Hlot; discriminate).
    reflexivity.
Qed.

(** A season-level form for season 9 of a show with seasons 1, 2, 3; a form
    without structure; an episode-level form for season 9. *)
Lemma expand_throws_iff_witness :
  let s := Sample.show_form (Some true) None None (Some 9) None in
  let e := Sample.show_form None None None (Some 9) (Some 9) in
  throws (expand s Sample.three_seasons [])
  ∧ expand s Sample.three_seasons []
    = Throws (InvariantError "No season selected")
  ∧ progressUpdate s = expand s [] []
  ∧ expand e Sample.three_seasons [] = Returns [variables e].
Proof.
  intros s e.
  destruct (expand_throws_iff s Sample.three_seasons []) as (Hiff & Herr & Hmiss & _).
  destruct (expand_throws_iff e Sample.three_seasons []) as (_ & _ & _ & Hep).
  assert (Hthrows : throws (expand s Sample.three_seasons [])).
  { apply Hiff. split; [reflexivity|]. split; [reflexivity|].
    intros season Hin. simpl.
    apply list_elem_of_In in Hin. simpl in Hin.
    destruct Hin as [<-|[<-|[<-|[]]]]; discriminate. }
  split; [exact Hthrows|]. split; [exact (Herr Hthrows)|].
  split; [exact (Hmiss eq_refl eq_refl)|].
  apply (Hep 9 9). repeat split; reflexivity.
Defined.

(** C2 as the spec states it fails: an episode-level form naming season 9 and
    episode 9 of a show that has neither returns its record, and a show form
    or a podcast form without structure returns the empty list. *)
Lemma absent_reference_returns :
  let e := Sample.show_form None None None (Some 9) (Some 9) in
  let c := Sample.show_form None (Some true) None None None in
  let p := Sample.podcast_form (Some true) in
  (ShowEpisode 9 9 e
   ∧ (9 ∉ map seasonNumber Sample.three_seasons)
   ∧ expand e Sample.three_seasons [] = Returns [pair_record e 9 9])
  ∧ (ShowComplete c ∧ Submission.showSpecifics c = None
     ∧ progressUpdate c = Returns [])
  ∧ (PodcastComplete p ∧ Submission.podcastSpecifics p = None
     ∧ progressUpdate p = Returns []).
Proof.
  intros e c p. split; [|split].
  - split; [by repeat split|]. split; [|reflexivity].
    simpl. intros Hin. apply list_elem_of_In in Hin. simpl in Hin.
    destruct Hin as [?|[?|[?|[]]]]; discriminate.
  - split; [by repeat split|]. split; reflexivity.
  - split; [by repeat split|]. split; reflexivity.
Qed.

(** C7, as the handler has it.  The handler returns the empty list, with no
    record for the item as a whole, for a ShowSeason intent without
    allSeasonsBefore whose target season is in the structure and has no
    episode, for a ShowSeason intent with allSeasonsBefore whose target is in
    the structure when no visited season has an episode, and for a
    PodcastComplete intent with the empty structure. *)
Theorem season_level_empty
    (s : Submission.t) (seasons : list Season) (eps : list PodcastEpisode) :
  (∀ target, ShowSeason target false s →
     target ∈ map seasonNumber seasons →
     (∀ season, season ∈ seasons → seasonNumber season = target →
        episodes season = []) →
     expand s seasons eps = Returns [])
  ∧ (∀ target, ShowSeason target true s →
     target ∈ map seasonNumber seasons →
     (∀ season, season ∈ visited target seasons → episodes season = []) →
     expand s seasons eps = Returns [])
  ∧ (PodcastComplete s → expand s seasons [] = Returns []).
Proof.
  split; [|split].
  - intros target (Hlot & Honly & Hcomplete & Hnum & Hall) Hin Hempty.
    unfold expand.
    rewrite anime_other, manga_other by (rewrite Hlot; discriminate).
    unfold show, complete_show, only_season.
    rewrite decide_True by done.
    rewrite Hcomplete, Honly, Hnum, Hall.
    destruct (find_season_is_Some target seasons Hin) as (sel & -> & Hsel & Hn).
    simpl. rewrite podcast_other by (rewrite Hlot; discriminate).
    rewrite (Hempty sel Hsel Hn). reflexivity.
  - intros target Hs Hin Hempty. pose proof Hs as (Hlot & _).
    unfold expand.
    rewrite anime_other, manga_other by (rewrite Hlot; discriminate).
    rewrite (show_block_all_before s target seasons _ Hs Hin). simpl.
    rewrite podcast_other by (rewrite Hlot; discriminate).
    unfold final; simpl. f_equal. unfold pair_records.
    induction (visited target seasons) as [|season rest IH]; simpl; [done|].
    rewrite (Hempty season) by constructor. simpl.
    apply IH. intros x Hx. apply Hempty. by constructor.
  - intros (Hlot & Hcomplete).
    unfold expand.
    rewrite anime_other, manga_other by (rewrite Hlot; discriminate).
    rewrite show_other by (rewrite Hlot; discriminate). simpl.
    unfold podcast. rewrite decide_True by done. rewrite Hcomplete.
    reflexivity.
Qed.

Lemma season_level_empty_witness :
  let s := Sample.show_form (Some true) None None (Some 2) None in
  let a := Sample.show_form (Some true) None (Some true) (Some 2) None in
  let p := Sample.podcast_form (Some true) in
  let only_empty := [Sample.season 1 []; Sample.season 2 []] in
  (ShowSeason 2 false s ∧ expand s Sample.empty_second [] = Returns [])
  ∧ (ShowSeason 2 true a ∧ expand a only_empty [] = Returns [])
  ∧ (PodcastComplete p ∧ expand p [] [] = Returns []).
Proof.
  intros s a p only_empty.
  assert (Hs : ShowSeason 2 false s) by (repeat split; reflexivity).
  assert (Ha : ShowSeason 2 true a) by (repeat split; reflexivity).
  assert (Hp : PodcastComplete p) by (repeat split; reflexivity).
  split; [|split].
  - split; [exact Hs|].
    apply (proj1 (season_level_empty s Sample.empty_second []) 2 Hs).
    + simpl; repeat constructor.
    + intros season Hin Hn. apply list_elem_of_In in Hin. simpl in Hin.
      destruct Hin as [<-|[<-|[]]]; [discriminate|reflexivity].
  - split; [exact Ha|].
    apply (proj1 (proj2 (season_level_empty a only_empty [])) 2 Ha).
    + simpl; repeat constructor.
    + intros season Hin. apply list_elem_of_In in Hin. simpl in Hin.
      destruct Hin as [<-|[<-|[]]]; reflexivity.
  - split; [exact Hp|].
    exact (proj2 (proj2 (season_level_empty p [] [])) Hp).
Defined.

(** C7 as the spec states it fails with allSeasonsBefore: season 2 is in the
    structure and has no episode, and the handler returns the two records of
    season 1. *)
Lemma empty_target_with_seasons_before :
  let a := Sample.show_form (Some true) None (Some true) (Some 2) None in
  ShowSeason 2 true a
  ∧ Sample.season 2 [] ∈ Sample.empty_second
  ∧ expand a Sample.empty_second []
    = Returns [pair_record a 1 1; pair_record a 1 2]
  ∧ expand a Sample.empty_second [] ≠ Returns [].
Proof.
  intros a. split; [by repeat split|]. split; [repeat constructor|].
  split; [reflexivity|discriminate].
Qed.

(** ** Anime and manga forms *)

(** The anime block on a form with a positive episode number and
    [animeAllEpisodesBefore]; the manga block likewise. *)
Lemma expand_anime_all_before
    (s : Submission.t) (n : Z) (seasons : list Season)
    (eps : list PodcastEpisode) :
  n ≠ 0 → AnimeEpisode (Some n) true s →
  expand s seasons eps
  = Returns (map (λ i, Variables.with_animeEpisodeNumber i (variables s))
               (seqZ 1 n)).
Proof.
  intros Hn (Hlot & Hnum & Hall).
  unfold expand, anime. rewrite decide_True by done.
  rewrite Hnum, Hall. simpl.
  destruct (Z.eqb_spec n 0) as [|_]; [done|]. simpl.
  rewrite manga_other by (rewrite Hlot; discriminate).
  rewrite show_other by (rewrite Hlot; discriminate). simpl.
  rewrite podcast_other by (rewrite Hlot; discriminate).
  reflexivity.
Qed.

Lemma expand_manga_all_before
    (s : Submission.t) (n : Z) (seasons : list Season)
    (eps : list PodcastEpisode) :
  n ≠ 0 → MangaChapter (Some n) true s →
  expand s seasons eps
  = Returns (map (λ i, Variables.with_mangaChapterNumber i (variables s))
               (seqZ 1 n)).
Proof.
  intros Hn (Hlot & Hnum & Hall).
  unfold expand. rewrite anime_other by (rewrite Hlot; discriminate).
  unfold manga. rewrite decide_True by done.
  rewrite Hnum, Hall. simpl.
  destruct (Z.eqb_spec n 0) as [|_]; [done|]. simpl.
  rewrite show_other by (rewrite Hlot; discriminate). simpl.
  rewrite podcast_other by (rewrite Hlot; discriminate).
  reflexivity.
Qed.

(** A form whose blocks all leave the locals alone returns [variables]. *)
Lemma expand_anime_single
    (s : Submission.t) (seasons : list Season) (eps : list PodcastEpisode) :
  Submission.metadataLot s = Anime →
  nonzero (Submission.animeEpisodeNumber s)
    && truthy (Submission.animeAllEpisodesBefore s) = false →
  expand s seasons eps = Returns [variables s].
Proof.
  intros Hlot Hoff.
  unfold expand, anime. rewrite decide_True by done.
  rewrite manga_other by (rewrite Hlot; repeat case_match; discriminate).
  rewrite show_other by (rewrite Hlot; discriminate). simpl.
  rewrite podcast_other by (rewrite Hlot; discriminate).
  destruct (nonzero _), (truthy _); done.
Qed.

Lemma expand_manga_single
    (s : Submission.t) (seasons : list Season) (eps : list PodcastEpisode) :
  Submission.metadataLot s = Manga →
  nonzero (Submission.mangaChapterNumber s)
    && truthy (Submission.mangaAllChaptersBefore s) = false →
  expand s seasons eps = Returns [variables s].
Proof.
  intros Hlot Hoff.
  unfold expand. rewrite anime_other by (rewrite Hlot; discriminate).
  unfold manga. rewrite decide_True by done.
  rewrite show_other by (rewrite Hlot; repeat case_match; discriminate). simpl.
  rewrite podcast_other by (rewrite Hlot; discriminate).
  destruct (nonzero _), (truthy _); done.
Qed.

(** C6. For an Anime intent with episode number n, n at least 1: with
    allBefore the handler returns n records whose anime episode numbers are
    1, 2, ..., n in this order, and nothing else; without it, one record,
    whose anime episode number is n. *)
Theorem anime_episode
    (s : Submission.t) (n : Z) (seasons : list Season)
    (eps : list PodcastEpisode) :
  1 ≤ n →
  (AnimeEpisode (Some n) true s →
     ∃ l, expand s seasons eps = Returns l
          ∧ Z.of_nat (length l) = n
          ∧ map Variables.animeEpisodeNumber l = map Some (seqZ 1 n))
  ∧ (AnimeEpisode (Some n) false s →
     ∃ r, expand s seasons eps = Returns [r]
          ∧ Variables.animeEpisodeNumber r = Some n).
Proof.
  intros Hn. split.
  - intros Hs. eexists. split; [apply (expand_anime_all_before s n); [lia|done]|].
    split.
    + rewrite length_map, length_seqZ. lia.
    + rewrite map_map. reflexivity.
  - intros (Hlot & Hnum & Hall). exists (variables s). split.
    + apply expand_anime_single; [done|]. rewrite Hall. apply andb_false_r.
    + exact Hnum.
Qed.

(** The examples of C6: episode 5 with and without allBefore. *)
Lemma anime_episode_witness :
  let a := Sample.anime_form (Some 5) (Some true) in
  let b := Sample.anime_form (Some 5) None in
  (AnimeEpisode (Some 5) true a
   ∧ ∃ l, expand a [] [] = Returns l ∧ Z.of_nat (length l) = 5
          ∧ map Variables.animeEpisodeNumber l
            = [Some 1; Some 2; Some 3; Some 4; Some 5])
  ∧ (AnimeEpisode (Some 5) false b
     ∧ ∃ r, expand b [] [] = Returns [r]
            ∧ Variables.animeEpisodeNumber r = Some 5).
Proof.
  intros a b.
  assert (Ha : AnimeEpisode (Some 5) true a) by (repeat split; reflexivity).
  assert (Hb : AnimeEpisode (Some 5) false b) by (repeat split; reflexivity).
  assert (H5 : 1 ≤ 5) by lia.
  split.
  - split; [exact Ha|]. exact (proj1 (anime_episode a 5 [] [] H5) Ha).
  - split; [exact Hb|]. exact (proj2 (anime_episode b 5 [] [] H5) Hb).
Defined.

(** C9. For an Anime intent with allBefore and episode number n, n at least
    1, each of the n records equals the record built from the form's flat
    fields on every field but the anime episode number, so the show and
    podcast numbers of the form are in every record; for a Manga intent
    likewise, with the manga chapter number. *)
Theorem all_before_frame
    (s : Submission.t) (n : Z) (seasons : list Season)
    (eps : list PodcastEpisode) :
  1 ≤ n →
  (AnimeEpisode (Some n) true s →
     ∃ l, expand s seasons eps = Returns l
          ∧ Z.of_nat (length l) = n
          ∧ Forall (λ r, same_but_anime r (variables s)
                         ∧ Variables.showSeasonNumber r
                           = Submission.showSeasonNumber s
                         ∧ Variables.showEpisodeNumber r
                           = Submission.showEpisodeNumber s
                         ∧ Variables.podcastEpisodeNumber r
                           = Submission.podcastEpisodeNumber s) l)
  ∧ (MangaChapter (Some n) true s →
     ∃ l, expand s seasons eps = Returns l
          ∧ Z.of_nat (length l) = n
          ∧ Forall (λ r, same_but_manga r (variables s)
                         ∧ Variables.showSeasonNumber r
                           = Submission.showSeasonNumber s
                         ∧ Variables.showEpisodeNumber r
                           = Submission.showEpisodeNumber s
                         ∧ Variables.podcastEpisodeNumber r
                           = Submission.podcastEpisodeNumber s) l).
Proof.
  intros Hn. split; intros Hs; eexists.
  - split; [apply (expand_anime_all_before s n); [lia|done]|]. split.
    + rewrite length_map, length_seqZ. lia.
    + apply Forall_map, Forall_forall. intros i _. by repeat split.
  - split; [apply (expand_manga_all_before s n); [lia|done]|]. split.
    + rewrite length_map, length_seqZ. lia.
    + apply Forall_map, Forall_forall. intros i _. by repeat split.
Qed.

(** An anime form and a manga form for number 3 that carry season 4,
    episode 2 and podcast episode 11. *)
Lemma all_before_frame_witness :
  let a := Sample.anime_form (Some 3) (Some true) in
  let m := Sample.manga_form (Some 3) (Some true) in
  (∃ l, expand a [] [] = Returns l ∧ Z.of_nat (length l) = 3
        ∧ Forall (λ r, same_but_anime r (variables a)
                       ∧ Variables.showSeasonNumber r = Some 4
                       ∧ Variables.showEpisodeNumber r = Some 2
                       ∧ Variables.podcastEpisodeNumber r = Some 11) l)
  ∧ (∃ l, expand m [] [] = Returns l ∧ Z.of_nat (length l) = 3
          ∧ Forall (λ r, same_but_manga r (variables m)
                         ∧ Variables.showSeasonNumber r = Some 4
                         ∧ Variables.showEpisodeNumber r = Some 2
                         ∧ Variables.podcastEpisodeNumber r = Some 11) l).
Proof.
  intros a m.
  assert (Ha : AnimeEpisode (Some 3) true a) by (repeat split; reflexivity).
  assert (Hm : MangaChapter (Some 3) true m) by (repeat split; reflexivity).
  assert (H3 : 1 ≤ 3) by lia.
  split.
  - exact (proj1 (all_before_frame a 3 [] [] H3) Ha).
  - exact (proj2 (all_before_frame m 3 [] [] H3) Hm).
Defined.

(** C10. For an Anime intent whose episode number is absent or 0, and for a
    Manga intent whose chapter number is absent or 0, the handler returns
    the one record built from the form's flat fields, whatever the
    allBefore flag is. *)
Theorem no_number_single_record
    (s : Submission.t) (allBefore : bool) (seasons : list Season)
    (eps : list PodcastEpisode) :
  AnimeEpisode None allBefore s ∨ AnimeEpisode (Some 0) allBefore s
  ∨ MangaChapter None allBefore s ∨ MangaChapter (Some 0) allBefore s →
  expand s seasons eps = Returns [variables s].
Proof.
  intros [(Hlot & Hnum & _)|[(Hlot & Hnum & _)|[(Hlot & Hnum & _)|(Hlot & Hnum & _)]]].
  - apply expand_anime_single; [done|]. by rewrite Hnum.
  - apply expand_anime_single; [done|]. by rewrite Hnum.
  - apply expand_manga_single; [done|]. by rewrite Hnum.
  - apply expand_manga_single; [done|]. by rewrite Hnum.
Qed.

Lemma no_number_single_record_witness :
  let a := Sample.anime_form None (Some true) in
  let b := Sample.anime_form (Some 0) (Some true) in
  let m := Sample.manga_form (Some 0) None in
  expand a [] [] = Returns [variables a]
  ∧ expand b [] [] = Returns [variables b]
  ∧ expand m [] [] = Returns [variables m].
Proof.
  intros a b m. split; [|split].
  - apply (no_number_single_record a true). left. repeat split; reflexivity.
  - apply (no_number_single_record b true). right; left.
    repeat split; reflexivity.
  - apply (no_number_single_record m false). right; right; right.
    repeat split; reflexivity.
Defined.

(** ** Every form *)

(** C8. Every record of the list the handler returns, for every form and
    structure, has the form's metadataId, the form's date, and progress 100. *)
Theorem records_common
    (s : Submission.t) (seasons : list Season) (eps : list PodcastEpisode)
    (l : list Variables.t) :
  expand s seasons eps = Returns l → Forall (common s) l.
Proof.
  unfold expand. intros H.
  destruct (show s seasons _) as [st|e] eqn:Hshow; simpl in H; [|done].
  injection H as <-.
  apply common_final, common_podcast.
  eapply (common_show s seasons); [|exact Hshow].
  apply common_manga, common_anime. constructor.
Qed.

Lemma records_common_witness :
  let s := Sample.show_form (Some true) None (Some true) (Some 2) None in
  Forall (common s) [pair_record s 1 1; pair_record s 1 2; pair_record s 2 1].
Proof.
  intros s. apply (records_common s Sample.three_seasons []). reflexivity.
Defined.

(** ** The import handler *)

(** [JSON.parse] throws nothing but a syntax error on its argument. *)
Lemma parse_throws (text : string) (e : error) :
  Json.parse text = Throws e → e = SyntaxError text.
Proof.
  unfold Json.parse. repeat case_match; intros [= <-] || intros [=]; done.
Qed.

Section DispatchFacts.

Variable processSubmission : FormData → ZObject → outcome (gmap string string).

Lemma deployImport_plain (source : ImportSource) (formData : FormData) :
  source ≠ StrongApp →
  deployImport processSubmission source formData
  = (o ← processSubmission formData (branch_schema source);
     Returns {| Input.source := source;
                Input.values := {[ variant source := object o ]} |}).
Proof.
  intros H. unfold deployImport.
  destruct source; try done; simpl;
    destruct (processSubmission formData _); reflexivity.
Qed.

Lemma deployImport_strong (formData : FormData) :
  deployImport processSubmission StrongApp formData
  = (newLocal ← processSubmission formData strongAppImportFormSchema;
     mapping ← parse_mapping newLocal;
     Returns {| Input.source := StrongApp;
                Input.values :=
                  {[ "strongApp" := <["mapping" := mapping]> (object newLocal) ]} |}).
Proof.
  unfold deployImport.
  destruct (processSubmission formData _) as [newLocal|]; simpl; [|done].
  destruct (parse_mapping newLocal); reflexivity.
Qed.

End DispatchFacts.

(** C4, as the handler has it.  The StrongApp branch parses the mapping
    field with [JSON.parse] after [processSubmission] has returned the
    fields, and checks nothing about the shape of what it parsed: when the
    mapping is not JSON text, as for "not json", the handler throws the
    syntax error of [JSON.parse] on that text, and no ValidationError; when
    it is JSON text of any value, the handler returns the strongApp variant
    with the parsed value as its mapping and the other fields as they were,
    so for "[]" the mapping is the empty list and exportPath is kept. *)
Theorem strong_app_mapping
    (processSubmission : FormData → ZObject → outcome (gmap string string))
    (formData : FormData) (newLocal : gmap string string) (m : string) :
  processSubmission formData strongAppImportFormSchema = Returns newLocal →
  newLocal !! "mapping" = Some m →
  (throws (Json.parse m) →
     deployImport processSubmission StrongApp formData = Throws (SyntaxError m))
  ∧ (∀ v, Json.parse m = Returns v →
       ∃ o, deployImport processSubmission StrongApp formData
            = Returns {| Input.source := StrongApp;
                         Input.values := {[ "strongApp" := o ]} |}
            ∧ o !! "mapping" = Some v
            ∧ o !! "exportPath" = JString <$> newLocal !! "exportPath")
  ∧ (m = "not json" →
       deployImport processSubmission StrongApp formData
       = Throws (SyntaxError "not json"))
  ∧ (m = "[]" →
       ∃ o, deployImport processSubmission StrongApp formData
            = Returns {| Input.source := StrongApp;
                         Input.values := {[ "strongApp" := o ]} |}
            ∧ o !! "mapping" = Some (JArray [])
            ∧ o !! "exportPath" = JString <$> newLocal !! "exportPath")
  ∧ (∀ field,
       deployImport processSubmission StrongApp formData
       ≠ Throws (ValidationError field)).
Proof.
  intros Hp Hm.
  assert (Hthrow : ∀ e, Json.parse m = Throws e →
            deployImport processSubmission StrongApp formData
            = Throws (SyntaxError m)).
  { intros e He. rewrite deployImport_strong, Hp. simpl.
    unfold parse_mapping. rewrite Hm. simpl. rewrite He.
    apply parse_throws in He. by subst. }
  assert (Hret : ∀ v, Json.parse m = Returns v →
            ∃ o, deployImport processSubmission StrongApp formData
                 = Returns {| Input.source := StrongApp;
                              Input.values := {[ "strongApp" := o ]} |}
                 ∧ o !! "mapping" = Some v
                 ∧ o !! "exportPath" = JString <$> newLocal !! "exportPath").
  { intros v Hv. eexists. split; [|split].
    - rewrite deployImport_strong, Hp. simpl.
      unfold parse_mapping. rewrite Hm. simpl. rewrite Hv. reflexivity.
    - apply lookup_insert_eq.
    - rewrite lookup_insert_ne by done. unfold object. apply lookup_fmap. }
  split; [|split; [|split; [|split]]].
  - intros [e He]. by apply (Hthrow e).
  - exact Hret.
  - intros ->. by apply (Hthrow (SyntaxError "not json")).
  - intros ->. by apply Hret.
  - intros field Hfield. destruct (Json.parse m) as [v|e] eqn:Hparse.
    + destruct (Hret v eq_refl) as (o & Ho & _). congruence.
    + rewrite (Hthrow e eq_refl) in Hfield. discriminate.
Qed.

(** The two examples of C4, with the fields read by the modelled
    [processSubmission]. *)
Lemma strong_app_mapping_witness :
  deployImport (processSubmission_spec Sample.is_url) StrongApp
    (Sample.strong_fields "not json")
  = Throws (SyntaxError "not json")
  ∧ ∃ o, deployImport (processSubmission_spec Sample.is_url) StrongApp
           (Sample.strong_fields "[]")
         = Returns {| Input.source := StrongApp;
                      Input.values := {[ "strongApp" := o ]} |}
         ∧ o !! "mapping" = Some (JArray [])
         ∧ o !! "exportPath" = Some (JString "x.csv").
Proof.
  pose proof (strong_app_mapping (processSubmission_spec Sample.is_url)
                (Sample.strong_fields "not json")
                {[ "exportPath" := "x.csv"; "mapping" := "not json" ]}
                "not json" eq_refl eq_refl) as (_ & _ & Hbad & _).
  pose proof (strong_app_mapping (processSubmission_spec Sample.is_url)
                (Sample.strong_fields "[]")
                {[ "exportPath" := "x.csv"; "mapping" := "[]" ]}
                "[]" eq_refl eq_refl) as (_ & _ & _ & Hgood & _).
  split; [exact (Hbad eq_refl) | exact (Hgood eq_refl)].
Defined.

(** C4 as the spec states it fails: on "not json" what the handler throws is
    the syntax error of [JSON.parse], not a ValidationError on the mapping
    field, and a mapping that is JSON text but no array of objects, "42", is
    accepted and passed on as the number it denotes. *)
Lemma strong_app_mapping_unchecked :
  deployImport (processSubmission_spec Sample.is_url) StrongApp
    (Sample.strong_fields "not json")
  = Throws (SyntaxError "not json")
  ∧ deployImport (processSubmission_spec Sample.is_url) StrongApp
      (Sample.strong_fields "not json")
    ≠ Throws (ValidationError "mapping")
  ∧ deployImport (processSubmission_spec Sample.is_url) StrongApp
      (Sample.strong_fields "42")
    = Returns {| Input.source := StrongApp;
                 Input.values :=
                   {[ "strongApp" :=
                        {[ "exportPath" := JString "x.csv";
                           "mapping" := JNumber 42 0 ]} ]} |}.
Proof. split; [reflexivity|]. split; [discriminate|reflexivity]. Qed.

(** *** The modelled [processSubmission] *)

Section ValidationFacts.

Variable is_url : string → bool.

(** What it returns has the keys of the schema, and every key of the
    schema is among the submitted fields. *)
Lemma processSubmission_spec_returns
    (formData : FormData) (schema : ZObject) (o : gmap string string) :
  processSubmission_spec is_url formData schema = Returns o →
  Forall (λ field, is_Some (formData !! field)) (map fst schema)
  ∧ dom o = (list_to_set (map fst schema) : gset string).
Proof.
  revert o. induction schema as [|[field ty] rest IH]; simpl; intros o.
  - intros [= <-]. split; [constructor|]. apply dom_empty_L.
  - destruct (formData !! field) as [v|] eqn:Hf; [|done].
    destruct (z_check is_url ty v); [|done].
    destruct (processSubmission_spec is_url formData rest) as [o'|] eqn:Hr;
      simpl; [|done].
    intros [= <-]. destruct (IH o' eq_refl) as [Hall Hdom]. split.
    + constructor; [by eexists | done].
    + rewrite dom_insert_L, Hdom. reflexivity.
Qed.

(** It returns the submitted value of every key of the schema. *)
Lemma processSubmission_spec_lookup
    (formData : FormData) (schema : ZObject) (o : gmap string string)
    (field : string) :
  processSubmission_spec is_url formData schema = Returns o →
  field ∈ map fst schema → o !! field = formData !! field.
Proof.
  revert o. induction schema as [|[k ty] rest IH]; simpl; intros o.
  - intros _ Hin. by apply elem_of_nil in Hin.
  - destruct (formData !! k) as [v|] eqn:Hk; [|done].
    destruct (z_check is_url ty v); [|done].
    destruct (processSubmission_spec is_url formData rest) as [o'|] eqn:Hr;
      simpl; [|done].
    intros [= <-] Hin. destruct (decide (k = field)) as [->|Hne].
    + by rewrite lookup_insert_eq.
    + rewrite lookup_insert_ne by done. apply IH; [done|].
      apply elem_of_cons in Hin as [->|Hin]; done.
Qed.

(** It returns when every key of the schema is submitted with a value that
    passes the check of the key. *)
Lemma processSubmission_spec_complete
    (formData : FormData) (schema : ZObject) :
  Forall (λ p, ∃ v, formData !! p.1 = Some v ∧ z_check is_url p.2 v = true)
    schema →
  returns (processSubmission_spec is_url formData schema).
Proof.
  induction schema as [|[field ty] rest IH]; simpl; intros H.
  - by eexists.
  - apply Forall_cons in H as [(v & Hv & Hc) Hrest]. simpl in Hv, Hc.
    rewrite Hv, Hc. destruct (IH Hrest) as [o ->]. by eexists.
Qed.

(** On the empty field set it fails on the first key of the schema. *)
Lemma processSubmission_spec_empty (field : string) (ty : ZString)
    (rest : ZObject) :
  processSubmission_spec is_url ∅ ((field, ty) :: rest)
  = Throws (ValidationError field).
Proof. simpl. by rewrite lookup_empty. Qed.

End ValidationFacts.

Lemma branch_schema_fields (source : ImportSource) :
  map fst (branch_schema source) = required_fields source.
Proof. by destruct source. Qed.

Lemma fully_populated_checks (is_url : string → bool) (source : ImportSource)
    (formData : FormData) :
  fully_populated is_url source formData →
  Forall (λ p, ∃ v, formData !! p.1 = Some v ∧ z_check is_url p.2 v = true)
    (branch_schema source).
Proof.
  intros (Hall & Hurl & _).
  destruct source; simpl in *;
    repeat match goal with
      | H : Forall _ (_ :: _) |- _ => apply Forall_cons in H as [[? ?] H]
      end;
    repeat (constructor; simpl); eauto.
Qed.

(** C5. For every import source: on a fully populated, valid field set the
    handler returns an input of that source whose only variant is the one
    keyed by the source, holding the required fields of the source and no
    other; on the empty field set it fails with a ValidationError naming a
    required field; and whenever it returns, every required field of the
    source was submitted, and the input has the one variant of the source. *)
Theorem dispatch_exhaustive (is_url : string → bool) (source : ImportSource) :
  (∀ formData, fully_populated is_url source formData →
     ∃ o, deployImport (processSubmission_spec is_url) source formData
          = Returns {| Input.source := source;
                       Input.values := {[ variant source := o ]} |}
          ∧ dom o = (list_to_set (required_fields source) : gset string))
  ∧ (∃ field, field ∈ required_fields source
       ∧ deployImport (processSubmission_spec is_url) source ∅
         = Throws (ValidationError field))
  ∧ (∀ formData input,
       deployImport (processSubmission_spec is_url) source formData
       = Returns input →
       Forall (λ field, is_Some (formData !! field)) (required_fields source)
       ∧ Input.source input = source
       ∧ ∃ o, Input.values input = {[ variant source := o ]}).
Proof.
  split; [|split].
  - intros formData Hfull.
    destruct (processSubmission_spec_complete is_url formData
                (branch_schema source)
                (fully_populated_checks is_url source formData Hfull))
      as [o Ho].
    destruct (processSubmission_spec_returns is_url _ _ _ Ho) as [Hall Hdom].
    rewrite branch_schema_fields in Hdom.
    destruct (decide (source = StrongApp)) as [->|Hne].
    + rewrite deployImport_strong.
      change (branch_schema StrongApp) with strongAppImportFormSchema in Ho.
      rewrite Ho. simpl.
      destruct Hfull as (_ & _ & Hmap).
      apply Forall_cons in Hall as [_ Hall].
      apply Forall_cons in Hall as [[m Hm] _]. simpl in Hm.
      assert (Hom : o !! "mapping" = Some m).
      { rewrite <- Hm.
        apply (processSubmission_spec_lookup is_url _ _ _ _ Ho).
        simpl. repeat constructor. }
      destruct (Hmap m) as [v Hv]; [simpl; auto | done |].
      unfold parse_mapping. rewrite Hom. simpl. rewrite Hv. simpl.
      eexists. split; [reflexivity|].
      rewrite dom_insert_L. unfold object. rewrite dom_fmap_L, Hdom.
      simpl. set_solver.
    + rewrite deployImport_plain by done. rewrite Ho. simpl.
      eexists. split; [reflexivity|].
      unfold object. by rewrite dom_fmap_L.
  - destruct source; (eexists; split; [|unfold deployImport; simpl;
      rewrite lookup_empty; reflexivity]); simpl; repeat constructor.
  - intros formData input H.
    assert (Hp : ∃ o, processSubmission_spec is_url formData
                        (branch_schema source) = Returns o).
    { destruct (decide (source = StrongApp)) as [->|Hne].
      - rewrite deployImport_strong in H.
        change (branch_schema StrongApp) with strongAppImportFormSchema.
        destruct (processSubmission_spec is_url formData _) as [o|]; [|done].
        by eexists.
      - rewrite deployImport_plain in H by done.
        destruct (processSubmission_spec is_url formData _) as [o|]; [|done].
        by eexists. }
    destruct Hp as [o Ho].
    destruct (processSubmission_spec_returns is_url _ _ _ Ho) as [Hall _].
    rewrite branch_schema_fields in Hall. split; [done|].
    destruct (decide (source = StrongApp)) as [->|Hne].
    + rewrite deployImport_strong in H.
      change (branch_schema StrongApp) with strongAppImportFormSchema in Ho.
      rewrite Ho in H.
      simpl in H. destruct (parse_mapping o) as [v|]; [|done].
      simpl in H. injection H as <-. simpl. split; [done|]. by eexists.
    + rewrite deployImport_plain in H by done. rewrite Ho in H.
      simpl in H. injection H as <-. simpl. split; [done|]. by eexists.
Qed.

(** A MediaTracker form with a well-formed URL and a key. *)
Lemma dispatch_exhaustive_witness :
  fully_populated Sample.is_url MediaTracker Sample.tracker_fields
  ∧ (∃ o, deployImport (processSubmission_spec Sample.is_url) MediaTracker
            Sample.tracker_fields
          = Returns {| Input.source := MediaTracker;
                       Input.values := {[ "mediaTracker" := o ]} |}
          ∧ dom o = (list_to_set ["apiUrl"; "apiKey"] : gset string))
  ∧ Forall (λ field, is_Some (Sample.tracker_fields !! field))
      ["apiUrl"; "apiKey"].
Proof.
  assert (Hfull : fully_populated Sample.is_url MediaTracker Sample.tracker_fields).
  { split; [|split].
    - repeat constructor; eexists; reflexivity.
    - intros v _ [= <-]. reflexivity.
    - intros v [H|[H|[]]]; discriminate. }
  destruct (dispatch_exhaustive Sample.is_url MediaTracker) as (Hok & _ & Hreq).
  split; [exact Hfull|].
  destruct (Hok Sample.tracker_fields Hfull) as (o & Ho & Hdom).
  split.
  - exists o. split; [exact Ho | exact Hdom].
  - exact (proj1 (Hreq Sample.tracker_fields _ Ho)).
Defined.

(** * Beyond the handler: the page around it *)

(** ** The text the form submits is the structure the handler reads *)

Lemma digit_char (d : Z) :
  0 ≤ d ≤ 9 → Json.digit (Json.char (48 + d)) = Some d.
Proof. intros H. digit_cases d; reflexivity. Qed.

Lemma digits_delimiter (a len : Z) (rest : string) :
  delimiter rest → Json.digits a len rest = (a, len, rest).
Proof. intros (c & r & -> & [->|[->| ->]]); reflexivity. Qed.

(** Reading back the digits that were written. *)
Lemma digits_write_digits (fuel : nat) : ∀ (n : Z) (rest : string),
  0 ≤ n < 10 ^ Z.of_nat (S fuel) →
  ∃ k, 0 < k ∧ ∀ a len,
    Json.digits a len (write_digits (S fuel) n rest)
    = Json.digits (a * 10 ^ k + n) (len + k) rest.
Proof.
  induction fuel as [|fuel IH]; intros n rest Hn.
  - exists 1. split; [lia|]. intros a len.
    change (10 ^ Z.of_nat 1) with 10 in Hn.
    simpl. destruct (Z.ltb_spec n 10); [|lia].
    simpl. rewrite Z.mod_small by lia. rewrite digit_char by lia.
    f_equal; lia.
  - change (write_digits (S (S fuel)) n rest)
      with (if n <? 10 then String (Json.char (48 + n mod 10)) rest
            else write_digits (S fuel) (n / 10)
                   (String (Json.char (48 + n mod 10)) rest)).
    destruct (Z.ltb_spec n 10) as [Hlt|Hge].
    + exists 1. split; [lia|]. intros a len.
      simpl. rewrite Z.mod_small by lia. rewrite digit_char by lia.
      f_equal; lia.
    + assert (Hdiv : 0 ≤ n / 10 < 10 ^ Z.of_nat (S fuel)).
      { split; [apply Z.div_pos; lia|].
        apply Z.div_lt_upper_bound; [lia|].
        rewrite <- Z.pow_succ_r by lia.
        replace (Z.succ (Z.of_nat (S fuel))) with (Z.of_nat (S (S fuel))) by lia.
        lia. }
      destruct (IH (n / 10) (String (Json.char (48 + n mod 10)) rest) Hdiv)
        as (k & Hk & Heq).
      exists (k + 1). split; [lia|]. intros a len.
      rewrite Heq. simpl.
      pose proof (Z.mod_pos_bound n 10 ltac:(lia)) as Hmod.
      rewrite digit_char by lia.
      f_equal; [|lia].
      rewrite Z.pow_add_r by lia. change (10 ^ 1) with 10.
      pose proof (Z.div_mod n 10 ltac:(lia)). lia.
Qed.

(** The first digit written: of a positive number it is not a zero. *)
Lemma write_digits_head (fuel : nat) : ∀ (n : Z) (rest : string),
  0 ≤ n < 10 ^ Z.of_nat (S fuel) →
  ∃ d r, write_digits (S fuel) n rest = String (Json.char (48 + d)) r
         ∧ 0 ≤ d ≤ 9 ∧ (0 < n → 0 < d).
Proof.
  induction fuel as [|fuel IH]; intros n rest Hn.
  - change (10 ^ Z.of_nat 1) with 10 in Hn.
    exists n, rest. simpl. destruct (Z.ltb_spec n 10); [|lia].
    rewrite Z.mod_small by lia. split; [done|]. lia.
  - change (write_digits (S (S fuel)) n rest)
      with (if n <? 10 then String (Json.char (48 + n mod 10)) rest
            else write_digits (S fuel) (n / 10)
                   (String (Json.char (48 + n mod 10)) rest)).
    destruct (Z.ltb_spec n 10) as [Hlt|Hge].
    + exists n, rest. rewrite Z.mod_small by lia. split; [done|]. lia.
    + assert (Hdiv : 0 ≤ n / 10 < 10 ^ Z.of_nat (S fuel)).
      { split; [apply Z.div_pos; lia|].
        apply Z.div_lt_upper_bound; [lia|].
        rewrite <- Z.pow_succ_r by lia.
        replace (Z.succ (Z.of_nat (S fuel))) with (Z.of_nat (S (S fuel))) by lia.
        lia. }
      destruct (IH (n / 10) (String (Json.char (48 + n mod 10)) rest) Hdiv)
        as (d & r & -> & Hd & Hpos).
      exists d, r. split; [done|]. split; [done|]. intros _. apply Hpos.
      apply Z.div_str_pos. lia.
Qed.

(** The digits reserved for a number are enough. *)
Lemma digits_enough (n : Z) :
  0 ≤ n → 0 ≤ n < 10 ^ Z.of_nat (S (Z.to_nat (Z.log2 n))).
Proof.
  intros Hn. split; [done|].
  pose proof (Z.log2_nonneg n) as Hlog.
  replace (Z.of_nat (S (Z.to_nat (Z.log2 n)))) with (Z.succ (Z.log2 n)) by lia.
  destruct (Z.eq_dec n 0) as [->|Hne].
  - reflexivity.
  - pose proof (Z.log2_spec n ltac:(lia)) as [_ Hlt].
    eapply Z.lt_le_trans; [exact Hlt|].
    apply Z.pow_le_mono_l. lia.
Qed.

(** A number that was written is read back, up to the delimiter. *)
Lemma parse_number_write (n : Z) (rest : string) :
  delimiter rest →
  Json.parse_number (write_number n rest) = Some (number_json n, rest).
Proof.
  intros Hrest. unfold write_number, number_json.
  assert (Htail : ∀ m, Json.parse_frac m rest = Some (m, 0, rest)
                       ∧ Json.parse_exp rest = Some (0, rest)).
  { intros m. destruct Hrest as (c & r & -> & [->|[->| ->]]); split; reflexivity. }
  assert (Hpos : ∀ m fuel, 0 < m < 10 ^ Z.of_nat (S fuel) →
            Json.parse_int (write_digits (S fuel) m rest) = Some (m, rest)).
  { intros m fuel Hm.
    destruct (write_digits_head fuel m rest ltac:(lia)) as (d & r & Hw & Hd & Hp).
    destruct (digits_write_digits fuel m rest ltac:(lia)) as (k & Hk & Hdig).
    specialize (Hdig 0 0). rewrite (digits_delimiter _ _ _ Hrest) in Hdig.
    unfold Json.parse_int. rewrite Hw in *.
    assert (Hz : Ascii.eqb (Json.char (48 + d)) "0" = false).
    { specialize (Hp ltac:(lia)). digit_cases d; try lia; reflexivity. }
    rewrite Hz, Hdig.
    destruct (Z.ltb_spec 0 (0 + k)); [|lia]. repeat f_equal; lia. }
  destruct (Z.ltb_spec n 0) as [Hneg|Hnn].
  - unfold Json.parse_number.
    change (Ascii.eqb "-" "-") with true. cbv iota beta.
    rewrite Hpos by (pose proof (digits_enough (- n)); lia).
    destruct (Htail (- n)) as [Hf He].
    cbn [mbind option_bind]. rewrite Hf.
    cbn [mbind option_bind]. rewrite He.
    cbn [mbind option_bind]. repeat f_equal; lia.
  - destruct (Z.eq_dec n 0) as [->|Hne];
      [by destruct Hrest as (c & r & -> & [->|[->| ->]])|].
    pose proof (digits_enough n Hnn) as Hfuel.
    destruct (write_digits_head _ n rest Hfuel) as (d & r & Hw & Hd & _).
    unfold Json.parse_number.
    assert (Hminus : Ascii.eqb (Json.char (48 + d)) "-" = false)
      by (digit_cases d; reflexivity).
    rewrite Hw, Hminus, <- Hw.
    rewrite Hpos by lia.
    destruct (Htail n) as [Hf He].
    cbn [mbind option_bind]. rewrite Hf.
    cbn [mbind option_bind]. rewrite He.
    reflexivity.
Qed.

(** A value that starts with a digit or a minus sign is read as a number. *)
Lemma parse_value_number (fuel : nat) (n : Z) (rest : string) :
  delimiter rest →
  Json.parse_value (S fuel) (write_number n rest) = Some (number_json n, rest).
Proof.
  intros Hrest. rewrite <- (parse_number_write n rest Hrest).
  unfold write_number. destruct (Z.ltb_spec n 0) as [Hneg|Hnn]; [reflexivity|].
  destruct (write_digits_head _ n rest (digits_enough n Hnn))
    as (d & r & -> & Hd & _).
  digit_cases d; reflexivity.
Qed.

Lemma write_number_starts (n : Z) (rest : string) :
  starts_value (write_number n rest).
Proof.
  unfold write_number. destruct (Z.ltb_spec n 0) as [Hneg|Hnn].
  - by eexists _, _.
  - destruct (write_digits_head _ n rest (digits_enough n Hnn))
      as (d & r & -> & Hd & _).
    eexists _, _. split; [done|]. digit_cases d; done.
Qed.

(** The first steps of the parser on an array, an object and a member. *)
Lemma parse_value_array (fuel : nat) (r : string) :
  Json.parse_value (S fuel) (String "[" r)
  = match Json.skip_ws r with
    | String c' r' =>
        if Ascii.eqb c' "]" then Some (JArray [], r')
        else '(items, rest) ← Json.parse_elements fuel r;
             Some (JArray items, rest)
    | EmptyString => None
    end.
Proof. reflexivity. Qed.

Lemma parse_value_object (fuel : nat) (r : string) :
  Json.parse_value (S fuel) (String "{" r)
  = match Json.skip_ws r with
    | String c' r' =>
        if Ascii.eqb c' "}" then Some (JObject [], r')
        else '(members, rest) ← Json.parse_members fuel r;
             Some (JObject members, rest)
    | EmptyString => None
    end.
Proof. reflexivity. Qed.

Lemma parse_elements_step (fuel : nat) (s : string) :
  Json.parse_elements (S fuel) s
  = ('(v, r) ← Json.parse_value fuel s;
     match Json.skip_ws r with
     | String c r' =>
         if Ascii.eqb c "," then
           '(vs, rest) ← Json.parse_elements fuel r'; Some (v :: vs, rest)
         else if Ascii.eqb c "]" then Some ([v], r')
         else None
     | EmptyString => None
     end).
Proof. reflexivity. Qed.

Lemma skip_ws_starts (s : string) : starts_value s → Json.skip_ws s = s.
Proof. intros (c & r & -> & Hws & _). simpl. by rewrite Hws. Qed.

Section Elements.

Context {A : Type}.
Variable write : A → string → string.
Variable json : A → jsvalue.
Variable need : A → nat.
Variable size : A → nat.

(** What the elements are assumed to do: each is read back with [need]
    calls, starts like a value, and takes at least [size] characters. *)
Hypothesis read_back : ∀ x fuel rest,
  (need x ≤ fuel)%nat → delimiter rest →
  Json.parse_value fuel (write x rest) = Some (json x, rest).
Hypothesis starts : ∀ x rest, starts_value (write x rest).
Hypothesis takes : ∀ x rest,
  (String.length rest + size x ≤ String.length (write x rest))%nat.

Lemma parse_elements_write (xs : list A) : ∀ (fuel : nat) (rest : string),
  xs ≠ [] → (sum_list_with (λ x, S (need x)) xs ≤ fuel)%nat →
  Json.parse_elements fuel (write_elements write xs (String "]" rest))
  = Some (map json xs, rest).
Proof.
  induction xs as [|x xs IH]; intros fuel rest Hne Hfuel; [done|].
  simpl in Hfuel.
  destruct fuel as [|fuel]; [lia|].
  rewrite parse_elements_step.
  destruct xs as [|y ys].
  - change (write_elements write [x] (String "]" rest))
      with (write x (String "]" rest)).
    rewrite read_back; [reflexivity|lia|]. eexists _, _. eauto.
  - change (write_elements write (x :: y :: ys) (String "]" rest))
      with (write x (String "," (write_elements write (y :: ys) (String "]" rest)))).
    rewrite read_back; [|lia|eexists _, _; eauto].
    cbn [mbind option_bind].
    change (Json.skip_ws (String "," ?t)) with (String "," t).
    cbv iota. change (Ascii.eqb "," ",") with true. cbv iota.
    rewrite IH; [reflexivity|done|]. simpl in *. lia.
Qed.

Lemma write_elements_starts (x : A) (xs : list A) (rest : string) :
  starts_value (write_elements write (x :: xs) rest).
Proof. destruct xs; apply starts. Qed.

Lemma parse_value_write_array (xs : list A) (fuel : nat) (rest : string) :
  (S (sum_list_with (λ x, S (need x)) xs) ≤ fuel)%nat →
  Json.parse_value fuel (write_array write xs rest)
  = Some (JArray (map json xs), rest).
Proof.
  intros Hfuel. destruct fuel as [|fuel]; [lia|].
  unfold write_array. rewrite parse_value_array.
  destruct xs as [|x xs]; [reflexivity|].
  destruct (write_elements_starts x xs (String "]" rest))
    as (c & r & Hw & Hws & Hclose).
  rewrite skip_ws_starts by (eexists _, _; eauto).
  rewrite Hw, Hclose, <- Hw.
  rewrite parse_elements_write; [reflexivity|done|lia].
Qed.

Lemma write_elements_length (xs : list A) (rest : string) :
  (String.length rest + sum_list_with size xs
   ≤ String.length (write_elements write xs rest))%nat.
Proof.
  induction xs as [|x xs IH]; simpl; [lia|].
  destruct xs as [|y ys].
  - simpl. pose proof (takes x rest). lia.
  - pose proof (takes x (String "," (write_elements write (y :: ys) rest))).
    simpl in *. lia.
Qed.

Lemma write_array_length (xs : list A) (rest : string) :
  (String.length rest + sum_list_with size xs + 2
   ≤ String.length (write_array write xs rest))%nat.
Proof.
  unfold write_array. simpl.
  pose proof (write_elements_length xs (String "]" rest)). simpl in *. lia.
Qed.

End Elements.

Lemma parse_members_write_key (fuel : nat) (k : string) (rest : string) :
  (∀ r, Json.parse_chars (k ++ String "034" r) = Some (k, r)) →
  Json.parse_members (S fuel) (write_key k rest)
  = ('(v, r3) ← Json.parse_value fuel rest;
     match Json.skip_ws r3 with
     | String c r4 =>
         if Ascii.eqb c "," then
           '(ms, rest') ← Json.parse_members fuel r4;
           Some ((k, v) :: ms, rest')
         else if Ascii.eqb c "}" then Some ([(k, v)], r4)
         else None
     | EmptyString => None
     end).
Proof.
  intros Hk. unfold write_key.
  remember (k ++ String "034" (String ":" rest)) as X eqn:HX.
  simpl. subst X. rewrite Hk. reflexivity.
Qed.

Lemma write_digits_length (fuel : nat) : ∀ (n : Z) (rest : string),
  (String.length rest ≤ String.length (write_digits fuel n rest))%nat
  ∧ (String.length rest + 1
     ≤ String.length (write_digits (S fuel) n rest))%nat.
Proof.
  induction fuel as [|fuel IH]; intros n rest.
  - simpl. destruct (n <? 10); simpl; lia.
  - split.
    + pose proof (proj2 (IH n rest)). lia.
    + change (write_digits (S (S fuel)) n rest)
        with (if n <? 10 then String (Json.char (48 + n mod 10)) rest
              else write_digits (S fuel) (n / 10)
                     (String (Json.char (48 + n mod 10)) rest)).
      destruct (n <? 10); [simpl; lia|].
      pose proof (proj2 (IH (n / 10) (String (Json.char (48 + n mod 10)) rest)))
        as H.
      change (String.length (String (Json.char (48 + n mod 10)) rest))
        with (S (String.length rest)) in H.
      lia.
Qed.

Lemma write_number_length (n : Z) (rest : string) :
  (String.length rest + 1 ≤ String.length (write_number n rest))%nat.
Proof.
  unfold write_number. destruct (n <? 0).
  - pose proof (proj2 (write_digits_length (Z.to_nat (Z.log2 (- n))) (- n) rest)).
    simpl in *. lia.
  - apply write_digits_length.
Qed.

Lemma sum_list_with_const {A} (c : nat) (xs : list A) :
  sum_list_with (λ _, c) xs = (c * length xs)%nat.
Proof.
  induction xs as [|x xs IH]; [simpl; lia|].
  change (sum_list_with (λ _ : A, c) (x :: xs))
    with (c + sum_list_with (λ _ : A, c) xs)%nat.
  rewrite IH. simpl. lia.
Qed.

(** An array of numbers is read back. *)
Lemma parse_value_write_numbers (ns : list Z) (fuel : nat) (rest : string) :
  (2 * length ns + 1 ≤ fuel)%nat →
  Json.parse_value fuel (write_array write_number ns rest)
  = Some (JArray (map number_json ns), rest).
Proof.
  intros Hfuel.
  apply (parse_value_write_array write_number number_json (λ _, 1%nat)).
  - intros n [|f] r Hf Hr; [lia|]. by apply parse_value_number.
  - apply write_number_starts.
  - rewrite sum_list_with_const. lia.
Qed.

Lemma write_numbers_length (ns : list Z) (rest : string) :
  (String.length rest + length ns + 2
   ≤ String.length (write_array write_number ns rest))%nat.
Proof.
  pose proof (write_array_length write_number (λ _, 1%nat)
                write_number_length ns rest) as H.
  rewrite sum_list_with_const in H. lia.
Qed.

(** The object of a season is read back. *)
Lemma parse_value_write_season (s : Season) (fuel : nat) (rest : string) :
  (2 * length (episodes s) + 4 ≤ fuel)%nat →
  Json.parse_value fuel (write_season s rest) = Some (season_json s, rest).
Proof.
  intros Hfuel.
  destruct fuel as [|[|[|fuel]]]; try lia.
  unfold write_season. rewrite parse_value_object.
  change (Json.skip_ws (write_key ?k ?r))
    with (String "034" (k ++ String "034" (String ":" r))).
  cbv iota. change (Ascii.eqb "034" "}") with false. cbv iota.
  rewrite parse_members_write_key by (intros r; reflexivity).
  rewrite parse_value_number by (eexists _, _; eauto).
  cbn [mbind option_bind].
  change (Json.skip_ws (String "," ?t)) with (String "," t).
  cbv iota. change (Ascii.eqb "," ",") with true. cbv iota.
  rewrite parse_members_write_key by (intros r; reflexivity).
  rewrite parse_value_write_numbers by lia.
  reflexivity.
Qed.

Lemma write_season_length (s : Season) (rest : string) :
  (String.length rest + (length (episodes s) + 5)
   ≤ String.length (write_season s rest))%nat.
Proof.
  unfold write_season, write_key. simpl.
  pose proof (write_number_length (seasonNumber s)
    (String ","
       (String "034" ("episodes" ++ String "034"
          (String ":" (write_array write_number (episodes s) (String "}" rest))))))).
  pose proof (write_numbers_length (episodes s) (String "}" rest)).
  simpl in *. lia.
Qed.

(** The object of a podcast episode is read back. *)
Lemma parse_value_write_podcast_episode
    (e : PodcastEpisode) (fuel : nat) (rest : string) :
  (3 ≤ fuel)%nat →
  Json.parse_value fuel (write_podcast_episode e rest)
  = Some (podcast_episode_json e, rest).
Proof.
  intros Hfuel.
  destruct fuel as [|[|[|fuel]]]; try lia.
  unfold write_podcast_episode. rewrite parse_value_object.
  change (Json.skip_ws (write_key ?k ?r))
    with (String "034" (k ++ String "034" (String ":" r))).
  cbv iota. change (Ascii.eqb "034" "}") with false. cbv iota.
  rewrite parse_members_write_key by (intros r; reflexivity).
  rewrite parse_value_number by (eexists _, _; eauto).
  reflexivity.
Qed.

Lemma write_podcast_episode_length (e : PodcastEpisode) (rest : string) :
  (String.length rest + 3 ≤ String.length (write_podcast_episode e rest))%nat.
Proof.
  unfold write_podcast_episode, write_key. simpl.
  pose proof (write_number_length (episodeNumber e) (String "}" rest)).
  simpl in *. lia.
Qed.

(** The schemas on the values of what the form serialises. *)
Lemma z_numbers (ns : list Z) :
  z_array z_number (JArray (map number_json ns)) = Returns ns.
Proof.
  simpl. induction ns as [|n ns IH]; simpl; [done|].
  rewrite IH. simpl. by rewrite Z.mul_1_r.
Qed.

Lemma showSpecificsSchema_seasons (seasons : list Season) :
  showSpecificsSchema (JArray (map season_json seasons)) = Returns seasons.
Proof.
  unfold showSpecificsSchema. simpl.
  induction seasons as [|[n es] rest IH]; simpl; [done|].
  rewrite IH.
  pose proof (z_numbers es) as Hes. simpl in Hes. rewrite Hes. simpl.
  by rewrite Z.mul_1_r.
Qed.

Lemma podcastSpecificsSchema_episodes (eps : list PodcastEpisode) :
  podcastSpecificsSchema (JArray (map podcast_episode_json eps)) = Returns eps.
Proof.
  unfold podcastSpecificsSchema. simpl.
  induction eps as [|[n] rest IH]; simpl; [done|].
  rewrite IH. simpl. by rewrite Z.mul_1_r.
Qed.

Lemma sum_list_with_double {A} (f g : A → nat) (xs : list A) :
  (∀ x, f x ≤ 2 * g x)%nat →
  (sum_list_with f xs ≤ 2 * sum_list_with g xs)%nat.
Proof.
  intros H. induction xs as [|x xs IH]; [simpl; lia|].
  change (sum_list_with f (x :: xs)) with (f x + sum_list_with f xs)%nat.
  change (sum_list_with g (x :: xs)) with (g x + sum_list_with g xs)%nat.
  specialize (H x). lia.
Qed.

(** [JSON.parse] on the two texts of the form. *)
Lemma parse_seasons_text (seasons : list Season) :
  Json.parse (write_array write_season seasons EmptyString)
  = Returns (JArray (map season_json seasons)).
Proof.
  unfold Json.parse.
  rewrite (parse_value_write_array write_season season_json
             (λ s, 2 * length (episodes s) + 4)%nat); [reflexivity| | |].
  - intros s fuel rest Hf _. by apply parse_value_write_season.
  - intros s rest. by eexists _, _.
  - pose proof (write_array_length write_season
                  (λ s, length (episodes s) + 5)%nat
                  write_season_length seasons EmptyString) as Hlen.
    pose proof (sum_list_with_double
                  (λ s, S (2 * length (episodes s) + 4))
                  (λ s, length (episodes s) + 5)%nat seasons
                  ltac:(intros; cbv beta; lia)).
    change (String.length EmptyString) with 0%nat in Hlen. lia.
Qed.

Lemma parse_podcast_text (eps : list PodcastEpisode) :
  Json.parse (write_array write_podcast_episode eps EmptyString)
  = Returns (JArray (map podcast_episode_json eps)).
Proof.
  unfold Json.parse.
  rewrite (parse_value_write_array write_podcast_episode podcast_episode_json
             (λ _, 3%nat)); [reflexivity| | |].
  - intros e fuel rest Hf _. by apply parse_value_write_podcast_episode.
  - intros e rest. by eexists _, _.
  - pose proof (write_array_length write_podcast_episode (λ _, 3%nat)
                  write_podcast_episode_length eps EmptyString) as Hlen.
    rewrite sum_list_with_const in *.
    change (String.length EmptyString) with 0%nat in Hlen. lia.
Qed.

Lemma read_showSpecifics_field (showSpecifics : option (list Graphql.Season)) :
  Json.parse (or_else (showSpecifics_field showSpecifics) "[]")
    ≫= showSpecificsSchema
  = Returns (default [] (form_seasons <$> showSpecifics)).
Proof.
  destruct showSpecifics as [seasons|]; [|reflexivity].
  change (or_else (showSpecifics_field (Some seasons)) "[]")
    with (write_array write_season (form_seasons seasons) EmptyString).
  rewrite parse_seasons_text. apply showSpecificsSchema_seasons.
Qed.

Lemma read_podcastSpecifics_field
    (podcastSpecifics : option (list Graphql.PodcastEpisode)) :
  Json.parse (or_else (podcastSpecifics_field podcastSpecifics) "[]")
    ≫= podcastSpecificsSchema
  = Returns (default [] (form_podcast_episodes <$> podcastSpecifics)).
Proof.
  destruct podcastSpecifics as [eps|]; [|reflexivity].
  change (or_else (podcastSpecifics_field (Some eps)) "[]")
    with (write_array write_podcast_episode (form_podcast_episodes eps)
            EmptyString).
  rewrite parse_podcast_text. apply podcastSpecificsSchema_episodes.
Qed.

(** X1. Whatever seasons and episodes the page holds, the text the progress
    form puts in its hidden field [showSpecifics] is read back by the
    handler as the same seasons, in order, each with its episode numbers in
    order; when the page holds no show specifics the handler reads the
    empty structure. *)
Theorem showSpecifics_round_trip
    (showSpecifics : option (list Graphql.Season)) :
  Json.parse (or_else (showSpecifics_field showSpecifics) "[]")
    ≫= showSpecificsSchema
  = Returns (default [] (form_seasons <$> showSpecifics)).
Proof. apply read_showSpecifics_field. Qed.

(** X2. The same for the hidden field [podcastSpecifics]: the handler reads
    back the episode numbers of the page, in order, and the empty structure
    when the page holds no podcast specifics. *)
Theorem podcastSpecifics_round_trip
    (podcastSpecifics : option (list Graphql.PodcastEpisode)) :
  Json.parse (or_else (podcastSpecifics_field podcastSpecifics) "[]")
    ≫= podcastSpecificsSchema
  = Returns (default [] (form_podcast_episodes <$> podcastSpecifics)).
Proof. apply read_podcastSpecifics_field. Qed.

(** ** More of the handler *)

(** [find] returns the first season that has the number looked for. *)
Lemma find_first_season (t : Z) (before after : list Season) (sel : Season) :
  Forall (λ x, seasonNumber x ≠ t) before → seasonNumber sel = t →
  find (λ x, strict_eq (seasonNumber x) (Some t)) (before ++ sel :: after)
  = Some sel.
Proof.
  intros Hbefore Hsel. induction Hbefore as [|x l Hx _ IH]; simpl.
  - by rewrite Hsel, Z.eqb_refl.
  - destruct (Z.eqb_spec (seasonNumber x) t); [done|exact IH].
Qed.

(** The records of a season-level form without [showAllSeasonsBefore]. *)
Lemma expand_only_season
    (s : Submission.t) (t : Z) (seasons : list Season) (sel : Season)
    (eps : list PodcastEpisode) :
  ShowSeason t false s →
  find (λ x, strict_eq (seasonNumber x) (Some t)) seasons = Some sel →
  expand s seasons eps = Returns (map (pair_record s t) (episodes sel)).
Proof.
  intros (Hlot & Honly & Hcomplete & Hnum & Hall) Hfind.
  unfold expand.
  rewrite anime_other, manga_other by (rewrite Hlot; discriminate).
  unfold show, complete_show, only_season.
  rewrite decide_True by done.
  rewrite Hcomplete, Honly, Hnum, Hall, Hfind. simpl.
  rewrite podcast_other by (rewrite Hlot; discriminate).
  unfold final. simpl. f_equal. apply map_ext. intros episode.
  unfold Variables.with_showEpisodeNumber, variables, pair_record. simpl.
  by rewrite Hnum.
Qed.



(** X4. End to end for a button of the seasons tab, with the checkbox
    [showAllSeasonsBefore] of the form left unticked: when the season
    numbers of the page are distinct, a season-level form for a season of
    the page that carries the page's structure in [showSpecifics] and no
    [showAllSeasonsBefore] makes the handler return, without throwing, one
    record per episode of that season. *)
Theorem season_button_records
    (s : Submission.t) (page : list Graphql.Season) (season : Graphql.Season) :
  NoDup (map Graphql.seasonNumber page) → season ∈ page →
  ShowSeason (Graphql.seasonNumber season) false s →
  Submission.showSpecifics s = showSpecifics_field (Some page) →
  Submission.podcastSpecifics s = None →
  progressUpdate s
  = Returns (map (pair_record s (Graphql.seasonNumber season))
               (map Graphql.episodeNumber (Graphql.episodes season))).
Proof.
  intros Hnodup Hin Hs Hshow Hpod.
  unfold progressUpdate. rewrite Hshow, Hpod.
  rewrite read_showSpecifics_field. simpl.
  apply list_elem_of_split in Hin as (l1 & l2 & ->).
  rewrite map_app in Hnodup. simpl in Hnodup.
  apply NoDup_app in Hnodup as (_ & Hdisj & _).
  unfold form_seasons. rewrite map_app. simpl.
  apply (expand_only_season s (Graphql.seasonNumber season) _
           {| seasonNumber := Graphql.seasonNumber season;
              episodes := map Graphql.episodeNumber (Graphql.episodes season) |});
    [done|].
  apply find_first_season; [|done].
  apply Forall_map, Forall_forall. intros x Hx. simpl. intros Heq.
  apply (Hdisj (Graphql.seasonNumber x)).
  - apply list_elem_of_fmap. by exists x.
  - rewrite Heq. by left.
Qed.

Lemma season_button_records_witness :
  let s := PageSample.season_button 3 in
  progressUpdate s
  = Returns [pair_record s 3 1; pair_record s 3 2; pair_record s 3 3].
Proof.
  intros s.
  apply (season_button_records s PageSample.seasons
           (PageSample.season 3 [1; 2; 3])).
  - apply (bool_decide_unpack (NoDup [1; 2; 3])). reflexivity.
  - repeat constructor.
  - repeat split; reflexivity.
  - reflexivity.
  - reflexivity.
Defined.







(** X7. For a PodcastComplete intent the handler returns one record per
    episode of the structure, in structure order, each the record of the
    form's flat fields with that episode number as its podcast episode, and
    no record for the item as a whole. *)
Theorem podcast_complete
    (s : Submission.t) (seasons : list Season) (eps : list PodcastEpisode) :
  PodcastComplete s →
  ∃ l, expand s seasons eps = Returns l
       ∧ length l = length eps
       ∧ map Variables.podcastEpisodeNumber l
         = map (λ e, Some (episodeNumber e)) eps
       ∧ Forall (λ r, ∃ n, r = Variables.with_podcastEpisodeNumber n (variables s)) l.
Proof.
  intros (Hlot & Hcomplete).
  exists (map (λ e, Variables.with_podcastEpisodeNumber (episodeNumber e)
                      (variables s)) eps).
  split; [|split; [|split]].
  - unfold expand.
    rewrite anime_other, manga_other by (rewrite Hlot; discriminate).
    rewrite show_other by (rewrite Hlot; discriminate). simpl.
    unfold podcast. rewrite decide_True by done. rewrite Hcomplete.
    reflexivity.
  - by rewrite length_map.
  - by rewrite map_map.
  - apply Forall_map, Forall_forall. intros e _. by eexists.
Qed.

Lemma podcast_complete_witness :
  let s := Sample.podcast_form (Some true) in
  ∃ l, expand s [] [{| episodeNumber := 5 |}; {| episodeNumber := 6 |}]
       = Returns l
       ∧ length l = 2%nat
       ∧ map Variables.podcastEpisodeNumber l = [Some 5; Some 6]
       ∧ Forall (λ r, ∃ n, r = Variables.with_podcastEpisodeNumber n (variables s)) l.
Proof.
  intros s.
  apply (podcast_complete s [] [{| episodeNumber := 5 |}; {| episodeNumber := 6 |}]).
  repeat split; reflexivity.
Defined.

(** X8. For an item that is neither anime, manga, show nor podcast the
    handler returns exactly the one record of the form's flat fields,
    whatever flags, numbers and structures the form carries; but it parses
    the two structure texts first, so a [showSpecifics] text that is not JSON
    makes it throw for such an item too. *)
Theorem single_record_kinds
    (s : Submission.t) (seasons : list Season) (eps : list PodcastEpisode) :
  Submission.metadataLot s ∈ [AudioBook; Book; Movie; VideoGame; VisualNovel] →
  expand s seasons eps = Returns [variables s]
  ∧ (∀ e, Json.parse (or_else (Submission.showSpecifics s) "[]") = Throws e →
          progressUpdate s = Throws e).
Proof.
  intros Hlot.
  assert (Hother : Submission.metadataLot s ≠ Anime
                   ∧ Submission.metadataLot s ≠ Manga
                   ∧ Submission.metadataLot s ≠ Show
                   ∧ Submission.metadataLot s ≠ Podcast).
  { apply list_elem_of_In in Hlot. simpl in Hlot.
    destruct Hlot as [<-|[<-|[<-|[<-|[<-|[]]]]]]; repeat split; discriminate. }
  destruct Hother as (Ha & Hm & Hs & Hp). split.
  - unfold expand. rewrite anime_other, manga_other, show_other by done.
    simpl. by rewrite podcast_other.
  - intros e He. unfold progressUpdate. by rewrite He.
Qed.

(** A book form that carries every flag, and one whose structure text is
    not JSON. *)
Lemma single_record_kinds_witness :
  let flags :=
    {| Submission.metadataLot := Book;
       Submission.date := None;
       Submission.redirectTo := None;
       Submission.showSpecifics := None;
       Submission.showAllSeasonsBefore := Some true;
       Submission.podcastSpecifics := None;
       Submission.onlySeason := Some true;
       Submission.completeShow := Some true;
       Submission.completePodcast := Some true;
       Submission.animeAllEpisodesBefore := Some true;
       Submission.mangaAllChaptersBefore := Some true;
       Submission.metadataId := 7;
       Submission.showSeasonNumber := Some 9;
       Submission.showEpisodeNumber := None;
       Submission.podcastEpisodeNumber := None;
       Submission.animeEpisodeNumber := Some 3;
       Submission.mangaChapterNumber := Some 3 |} in
  let broken :=
    {| Submission.metadataLot := Book;
       Submission.date := None;
       Submission.redirectTo := None;
       Submission.showSpecifics := Some "[1,";
       Submission.showAllSeasonsBefore := None;
       Submission.podcastSpecifics := None;
       Submission.onlySeason := None;
       Submission.completeShow := None;
       Submission.completePodcast := None;
       Submission.animeAllEpisodesBefore := None;
       Submission.mangaAllChaptersBefore := None;
       Submission.metadataId := 7;
       Submission.showSeasonNumber := None;
       Submission.showEpisodeNumber := None;
       Submission.podcastEpisodeNumber := None;
       Submission.animeEpisodeNumber := None;
       Submission.mangaChapterNumber := None |} in
  expand flags Sample.three_seasons [{| episodeNumber := 5 |}]
  = Returns [variables flags]
  ∧ progressUpdate broken = Throws (SyntaxError "[1,").
Proof.
  intros flags broken. split.
  - apply (single_record_kinds flags). repeat constructor.
  - apply (proj2 (single_record_kinds broken [] [] ltac:(repeat constructor))).
    reflexivity.
Defined.

(** X9. For an Anime or Manga intent with allBefore whose number is
    negative, the handler returns the empty list: the loop from 1 runs no
    step, and no record for the item as a whole is added. *)
Theorem all_before_negative
    (s : Submission.t) (n : Z) (seasons : list Season)
    (eps : list PodcastEpisode) :
  n < 0 →
  AnimeEpisode (Some n) true s ∨ MangaChapter (Some n) true s →
  expand s seasons eps = Returns [].
Proof.
  intros Hn [Hs|Hs].
  - rewrite (expand_anime_all_before s n seasons eps ltac:(lia) Hs).
    by rewrite seqZ_nil by lia.
  - rewrite (expand_manga_all_before s n seasons eps ltac:(lia) Hs).
    by rewrite seqZ_nil by lia.
Qed.

Lemma all_before_negative_witness :
  expand (Sample.anime_form (Some (-3)) (Some true)) [] [] = Returns []
  ∧ expand (Sample.manga_form (Some (-1)) (Some true)) [] [] = Returns [].
Proof.
  split.
  - apply (all_before_negative _ (-3)); [lia|]. left. repeat split; reflexivity.
  - apply (all_before_negative _ (-1)); [lia|]. right. repeat split; reflexivity.
Defined.

(** ** The seasons tab and the history *)

Lemma existsb_filter {A} (f : A → bool) (l : list A) :
  existsb f l = true ↔ (0 < length (List.filter f l))%nat.
Proof.
  induction l as [|x l IH]; simpl; [split; [discriminate|lia]|].
  destruct (f x); simpl; [split; [lia|done]|exact IH].
Qed.

(** X10. The indicator of a season is 0 or 1, and it is 1 exactly when the
    season has an episode and the indicator of each of its episodes is
    positive. *)
Theorem season_indicator_episodes
    (history : list Graphql.Seen) (s : Graphql.Season) :
  (season_indicator history s ≤ 1)%nat
  ∧ (season_indicator history s = 1%nat ↔
       Graphql.episodes s ≠ []
       ∧ ∀ e, e ∈ Graphql.episodes s →
           (0 < episode_indicator history (Graphql.seasonNumber s)
                  (Graphql.episodeNumber e))%nat).
Proof.
  unfold season_indicator, episode_indicator.
  destruct (forallb _ (Graphql.episodes s)) eqn:Hall.
  - rewrite forallb_forall in Hall.
    destruct (Graphql.episodes s) as [|e es] eqn:Heps; simpl.
    + split; [lia|]. split; [discriminate|]. by intros [? _].
    + split; [lia|]. split; [|done]. intros _. split; [done|].
      intros x Hx. apply existsb_filter, Hall. by apply list_elem_of_In.
  - rewrite andb_false_r. split; [lia|]. split; [discriminate|].
    intros [_ Hpos]. exfalso.
    assert (forallb (λ e, existsb (seen_episode (Graphql.seasonNumber s)
                                     (Graphql.episodeNumber e)) history)
              (Graphql.episodes s) = true); [|congruence].
    apply forallb_forall. intros x Hx.
    apply existsb_filter, Hpos. by apply list_elem_of_In.
Qed.

(** The records of a ShowComplete intent. *)
Lemma expand_complete_show
    (s : Submission.t) (seasons : list Season) (eps : list PodcastEpisode) :
  ShowComplete s → expand s seasons eps = Returns (pair_records s seasons).
Proof.
  intros (Hlot & Hcomplete & Honly). unfold expand.
  rewrite anime_other, manga_other by (rewrite Hlot; discriminate).
  unfold show, complete_show, only_season.
  rewrite decide_True by done.
  rewrite Hcomplete, Honly. simpl.
  rewrite podcast_other by (rewrite Hlot; discriminate).
  rewrite complete_loop. reflexivity.
Qed.

Lemma elem_of_pair_records (s : Submission.t) (seasons : list Season)
    (season : Season) (episode : Z) :
  season ∈ seasons → episode ∈ episodes season →
  pair_record s (seasonNumber season) episode ∈ pair_records s seasons.
Proof.
  intros Hs He. unfold pair_records.
  apply list_elem_of_In, in_flat_map. exists season.
  split; [by apply list_elem_of_In|].
  apply in_map. by apply list_elem_of_In.
Qed.

(** X11. Marking a whole show and then looking at the seasons tab: when the
    history holds, for every record the handler returns for a ShowComplete
    intent on the page's structure, an item with progress 100 for that
    record's season and episode, the indicator of every season of the page
    that has an episode is 1. *)
Theorem show_complete_lights_seasons
    (s : Submission.t) (page : list Graphql.Season)
    (eps : list PodcastEpisode) (history : list Graphql.Seen)
    (l : list Variables.t) :
  ShowComplete s →
  expand s (form_seasons page) eps = Returns l →
  (∀ r, r ∈ l →
     ∃ h a b, h ∈ history ∧ Graphql.progress h = 100
              ∧ Variables.showSeasonNumber r = Some a
              ∧ Variables.showEpisodeNumber r = Some b
              ∧ Graphql.showExtraInformation h = Some (a, b)) →
  ∀ season, season ∈ page → Graphql.episodes season ≠ [] →
    season_indicator history season = 1%nat.
Proof.
  intros Hs Hl Hrecorded season Hin Hne.
  rewrite (expand_complete_show s _ eps Hs) in Hl. injection Hl as <-.
  unfold season_indicator.
  destruct (Graphql.episodes season) as [|e0 es0] eqn:Heps; [done|].
  rewrite <- Heps. rewrite Heps at 1. simpl.
  assert (Hall : forallb (λ e, existsb (seen_episode (Graphql.seasonNumber season)
                                          (Graphql.episodeNumber e)) history)
                   (Graphql.episodes season) = true); [|by rewrite Hall].
  apply forallb_forall. intros e He. apply existsb_exists.
  destruct (Hrecorded
              (pair_record s (Graphql.seasonNumber season) (Graphql.episodeNumber e)))
    as (h & a & b & Hh & Hp & [= <-] & [= <-] & Hinfo).
  - apply (elem_of_pair_records s (form_seasons page)
             {| seasonNumber := Graphql.seasonNumber season;
                episodes := map Graphql.episodeNumber (Graphql.episodes season) |}).
    + unfold form_seasons. apply list_elem_of_fmap. by exists season.
    + simpl. apply list_elem_of_fmap. exists e. split; [done|].
      by apply list_elem_of_In.
  - exists h. split; [by apply list_elem_of_In|].
    unfold seen_episode. rewrite Hp, Hinfo. simpl. by rewrite !Z.eqb_refl.
Qed.

(** A show of one season with two episodes, both in the history. *)
Lemma show_complete_lights_seasons_witness :
  let s := Sample.show_form None (Some true) None None None in
  let season := PageSample.season 1 [1; 2] in
  let seen e := {| Graphql.progress := 100;
                   Graphql.showExtraInformation := Some (1, e);
                   Graphql.podcastExtraInformation := None |} in
  season_indicator [seen 2; seen 1] season = 1%nat.
Proof.
  intros s season seen.
  apply (show_complete_lights_seasons s [season] [] [seen 2; seen 1]
           [pair_record s 1 1; pair_record s 1 2]).
  - repeat split; reflexivity.
  - reflexivity.
  - intros r Hr. apply list_elem_of_In in Hr.
    destruct Hr as [<-|[<-|[]]].
    + exists (seen 1), 1, 1. repeat split. repeat constructor.
    + exists (seen 2), 1, 2. repeat split. repeat constructor.
  - repeat constructor.
  - discriminate.
Defined.

(** X12. An item of the history whose progress is not 100 never counts
    towards the indicator of an episode of a show, but it does count towards
    the indicator of the podcast episode it names. *)
Theorem in_progress_item
    (h : Graphql.Seen) (history : list Graphql.Seen) :
  Graphql.progress h ≠ 100 →
  (∀ season episode,
     episode_indicator (h :: history) season episode
     = episode_indicator history season episode)
  ∧ (∀ episode, Graphql.podcastExtraInformation h = Some episode →
       podcast_indicator (h :: history) episode
       = S (podcast_indicator history episode)).
Proof.
  intros Hp. split.
  - intros season episode. unfold episode_indicator, seen_episode. simpl.
    destruct (Z.eqb_spec (Graphql.progress h) 100); [done|reflexivity].
  - intros episode He. unfold podcast_indicator, seen_podcast_episode. simpl.
    rewrite He, Z.eqb_refl. reflexivity.
Qed.

Lemma in_progress_item_witness :
  let h := {| Graphql.progress := 40;
              Graphql.showExtraInformation := Some (1, 2);
              Graphql.podcastExtraInformation := Some 5 |} in
  episode_indicator [h] 1 2 = 0%nat ∧ podcast_indicator [h] 5 = 1%nat.
Proof.
  intros h.
  destruct (in_progress_item h [] ltac:(discriminate)) as [Hshow Hpod].
  split; [exact (Hshow 1 2) | exact (Hpod 5 eq_refl)].
Defined.

(** [find] by a number that no two elements share returns the element that
    has it. *)
Lemma find_unique {A} (key : A → Z) (l : list A) (x : A) :
  NoDup (map key l) → x ∈ l → find (λ y, key y =? key x) l = Some x.
Proof.
  induction l as [|y l IH]; intros Hnodup Hin; [by apply elem_of_nil in Hin|].
  change (map key (y :: l)) with (key y :: map key l) in Hnodup.
  apply NoDup_cons in Hnodup as [Hy Hl]. simpl.
  apply elem_of_cons in Hin as [->|Hin]; [by rewrite Z.eqb_refl|].
  destruct (Z.eqb_spec (key y) (key x)) as [Heq|_]; [|by apply IH].
  exfalso. apply Hy. rewrite Heq. apply list_elem_of_fmap. by exists x.
Qed.

(** X13. The line of an item of the history: when the season numbers of the
    page are distinct and so are the episode numbers of a season, an item
    that names that season and one of its episodes shows
    [S<season>-E<episode>: <name>] with the name of that very episode; an
    item that names a season the page does not have shows no line. *)
Theorem seen_item_line
    (page : list Graphql.Season) (h : Graphql.Seen) (season episode : Z) :
  Graphql.showExtraInformation h = Some (season, episode) →
  (∀ s e, NoDup (map Graphql.seasonNumber page) → s ∈ page →
     NoDup (map Graphql.episodeNumber (Graphql.episodes s)) →
     e ∈ Graphql.episodes s →
     Graphql.seasonNumber s = season → Graphql.episodeNumber e = episode →
     displayShowExtraInformation (Some page) h
     = Some ("S" +:+ write_number season
               ("-E" +:+ write_number episode (": " +:+ Graphql.name e))))
  ∧ (season ∉ map Graphql.seasonNumber page →
     displayShowExtraInformation (Some page) h = None).
Proof.
  intros Hinfo. unfold displayShowExtraInformation. rewrite Hinfo. split.
  - intros s e Hpage Hs Heps He <- <-. simpl.
    rewrite (find_unique Graphql.seasonNumber page s Hpage Hs). simpl.
    rewrite (find_unique Graphql.episodeNumber _ e Heps He). reflexivity.
  - intros Hnot. simpl.
    destruct (find _ page) as [s|] eqn:Hfind; [|reflexivity].
    exfalso. apply find_some in Hfind as [Hin Heq].
    apply Z.eqb_eq in Heq. apply Hnot. rewrite <- Heq.
    apply list_elem_of_fmap. exists s. split; [done|].
    by apply list_elem_of_In.
Qed.

Lemma seen_item_line_witness :
  let h := {| Graphql.progress := 100;
              Graphql.showExtraInformation := Some (3, 2);
              Graphql.podcastExtraInformation := None |} in
  let gone := {| Graphql.progress := 100;
                 Graphql.showExtraInformation := Some (9, 1);
                 Graphql.podcastExtraInformation := None |} in
  displayShowExtraInformation (Some PageSample.seasons) h
  = Some "S3-E2: Episode"
  ∧ displayShowExtraInformation (Some PageSample.seasons) gone = None.
Proof.
  intros h gone. split.
  - apply (proj1 (seen_item_line PageSample.seasons h 3 2 eq_refl)
             (PageSample.season 3 [1; 2; 3]) (PageSample.episode 2)).
    + apply (bool_decide_unpack (NoDup [1; 2; 3])). reflexivity.
    + repeat constructor.
    + apply (bool_decide_unpack (NoDup [1; 2; 3])). reflexivity.
    + repeat constructor.
    + reflexivity.
    + reflexivity.
  - apply (proj2 (seen_item_line PageSample.seasons gone 9 1 eq_refl)).
    apply (bool_decide_unpack (9 ∉ [1; 2; 3])). reflexivity.
Defined.

(** ** The import and export forms *)

(** X14. For every import source, the inputs the import form renders are
    the fields the schema of the handler's branch for that source requires:
    a name is among the one exactly when it is among the other. *)
Theorem form_inputs_schema (source : ImportSource) (field : string) :
  field ∈ form_inputs source ↔ field ∈ map fst (branch_schema source).
Proof.
  destruct source; simpl; rewrite ?elem_of_cons, ?elem_of_nil; tauto.
Qed.

Lemma comma_free_cons (c : ascii) (r : string) :
  comma_free (String c r) ↔ c ≠ ","%char ∧ comma_free r.
Proof.
  unfold comma_free. simpl. split.
  - intros H. split; [apply H; by left|]. intros x Hx. apply H. by right.
  - intros [Hc Hr] x [<-|Hx]; [done|by apply Hr].
Qed.

Lemma split_commas_nonempty (v : string) : split_commas v ≠ [].
Proof.
  induction v as [|c r IH]; simpl; [done|].
  destruct (Ascii.eqb c ","); [done|]. by destruct (split_commas r).
Qed.

Lemma join_commas_cons (x : string) (y : string) (ys : list string) :
  join_commas (x :: y :: ys) = x +:+ String "," (join_commas (y :: ys)).
Proof. reflexivity. Qed.

Lemma split_commas_pieces (v : string) : Forall comma_free (split_commas v).
Proof.
  induction v as [|c r IH]; simpl.
  - repeat constructor. intros c [].
  - destruct (Ascii.eqb_spec c ",") as [->|Hc].
    + constructor; [intros c []|exact IH].
    + destruct (split_commas r) as [|piece pieces]; simpl.
      * repeat constructor. apply comma_free_cons. split; [done|intros x []].
      * apply Forall_cons in IH as [Hp Hps].
        constructor; [by apply comma_free_cons|exact Hps].
Qed.

Lemma join_split_commas (v : string) : join_commas (split_commas v) = v.
Proof.
  induction v as [|c r IH]; simpl; [reflexivity|].
  pose proof (split_commas_nonempty r) as Hne.
  destruct (Ascii.eqb_spec c ",") as [->|Hc].
  - destruct (split_commas r) as [|y ys]; [done|].
    rewrite join_commas_cons, IH. reflexivity.
  - destruct (split_commas r) as [|y ys]; [done|].
    destruct ys as [|z zs].
    + unfold join_commas in *. simpl in *. by rewrite IH.
    + rewrite join_commas_cons. rewrite join_commas_cons in IH.
      rewrite <- IH. reflexivity.
Qed.

Lemma split_commas_app (x r : string) :
  comma_free x →
  split_commas (x +:+ String "," r) = x :: split_commas r.
Proof.
  induction x as [|c x IH]; intros Hx; simpl; [reflexivity|].
  apply comma_free_cons in Hx as [Hc Hx].
  destruct (Ascii.eqb_spec c ","); [done|]. by rewrite IH.
Qed.

Lemma split_commas_comma_free (x : string) :
  comma_free x → split_commas x = [x].
Proof.
  induction x as [|c x IH]; intros Hx; simpl; [reflexivity|].
  apply comma_free_cons in Hx as [Hc Hx].
  destruct (Ascii.eqb_spec c ","); [done|]. by rewrite IH.
Qed.

(** X15. The field [toExport] decodes what a comma-joined selection
    encodes: for a selection of one or more items none of which contains a
    comma, the transform of [deployExportForm] on the items joined with
    commas returns the items, in order. *)
Theorem toExport_join (items : list string) :
  items ≠ [] → Forall comma_free items →
  toExport (join_commas items) = items.
Proof.
  unfold toExport. intros Hne Hfree.
  induction Hfree as [|x l Hx Hl IH]; [done|].
  destruct l as [|y ys].
  - by apply split_commas_comma_free.
  - rewrite join_commas_cons, split_commas_app by done.
    f_equal. by apply IH.
Qed.

Lemma toExport_join_witness :
  toExport "MEDIA,PEOPLE,WORKOUTS" = ["MEDIA"; "PEOPLE"; "WORKOUTS"].
Proof.
  apply (toExport_join ["MEDIA"; "PEOPLE"; "WORKOUTS"]); [done|].
  repeat constructor; intros c Hc; simpl in Hc;
    repeat (destruct Hc as [<-|Hc]; [discriminate|]); destruct Hc.
Defined.

(** X16. On any text the transform of [toExport] returns at least one item,
    none of its items contains a comma, and joining them with commas gives
    the text back; so the empty text yields one empty item, not an empty
    list. *)
Theorem toExport_pieces (v : string) :
  toExport v ≠ []
  ∧ Forall comma_free (toExport v)
  ∧ join_commas (toExport v) = v
  ∧ toExport EmptyString = [EmptyString].
Proof.
  unfold toExport. split; [apply split_commas_nonempty|].
  split; [apply split_commas_pieces|].
  split; [apply join_split_commas|reflexivity].
Qed.

(** ** The page and the handler, end to end *)

(** X17. Whatever the page holds, a form that carries the page's two hidden
    fields never fails on them: the handler does on it what [expand] does on
    the seasons and episode numbers of the page, with the empty structure
    for the specifics the page does not have. *)
Theorem progressUpdate_on_page
    (s : Submission.t) (showSpecifics : option (list Graphql.Season))
    (podcastSpecifics : option (list Graphql.PodcastEpisode)) :
  Submission.showSpecifics s = showSpecifics_field showSpecifics →
  Submission.podcastSpecifics s = podcastSpecifics_field podcastSpecifics →
  progressUpdate s
  = expand s (default [] (form_seasons <$> showSpecifics))
      (default [] (form_podcast_episodes <$> podcastSpecifics)).
Proof.
  intros Hshow Hpod. unfold progressUpdate. rewrite Hshow, Hpod.
  rewrite read_showSpecifics_field. simpl.
  rewrite read_podcastSpecifics_field. reflexivity.
Qed.

Lemma progressUpdate_on_page_witness :
  progressUpdate (PageSample.season_button 1)
  = expand (PageSample.season_button 1) Sample.three_seasons [].
Proof.
  apply (progressUpdate_on_page (PageSample.season_button 1)
           (Some PageSample.seasons) None); reflexivity.
Defined.
